(** * ClamAV virus-scanner Lambda: a shallow embedding and its properties

    Source: [aws-migration/lambda/clamav-scanner/index.py].

    The handler is orchestration code around three collaborators (the S3
    client, the SNS client and the [clamscan] executable) and the local
    file system.  The embedding keeps the control flow of the Python
    functions and threads an explicit [World] through them: the set of
    existing local paths, a clock counter and the chronological trace of
    every observable effect (log lines, client calls with their outcome,
    engine runs).  What the collaborators answer is not decided by the
    handler; it is supplied by an [Env], a deterministic function of the
    history, so that a statement quantified over [Env] and [World] holds
    for every behaviour of the outside world.

    What is taken for granted about the outside world:
    - a call on the S3 or SNS client either returns or raises botocore's
      [ClientError], the provider-defined error of these interfaces;
    - [subprocess.run] either returns a completed process or raises (a
      [TimeoutExpired] after the 300 seconds it is given, or any other
      exception);
    - creating the temporary file succeeds, and [os.unlink] removes a file
      that exists;
    - the fetch and the engine may leave the local disk in any state.
    Sizes are integers (JSON numbers with a fraction are not modelled). *)

From Stdlib Require Import ZArith String Ascii List Lia Bool.
From stdpp Require Import base strings gmap.
Import ListNotations.
Open Scope Z_scope.
Open Scope string_scope.

(** ** Python values

    The event is decoded JSON, so values are [None], booleans, integers,
    strings, lists and dicts.  A Python [str] is a [string] with one
    [ascii] per character (code points up to 255); a dict is an
    association list in insertion order, looked up by first match. *)

#[local] Set Warnings "-register-all".
Inductive pyval : Type :=
| PNone
| PBool (b : bool)
| PInt (n : Z)
| PStr (s : string)
| PList (l : list pyval)
| PDict (d : list (string * pyval)).

Abbreviation dict := (list (string * pyval)).

(** The exceptions that can occur in this module.  [ClientError] is
    botocore's, [TimeoutExpired] is subprocess's. *)
Inductive exn : Type :=
| ValueError (msg : string)
| KeyError (key : pyval)
| IndexError (msg : string)
| TypeError (msg : string)
| AttributeError (msg : string)
| ClientError (msg : string)
| TimeoutExpired (cmd : list string) (timeout : Z)
| OSError (msg : string).

Inductive Result (A : Type) : Type :=
| Ok (a : A)
| Raise (e : exn).
Arguments Ok {A} a.
Arguments Raise {A} e.

Definition type_name (v : pyval) : string :=
  match v with
  | PNone => "NoneType"
  | PBool _ => "bool"
  | PInt _ => "int"
  | PStr _ => "str"
  | PList _ => "list"
  | PDict _ => "dict"
  end.

(** ** Strings *)

Module Str.

Definition code (c : ascii) : N := N_of_ascii c.

(** [str.isspace] on code points below 256. *)
Definition isspace (c : ascii) : bool :=
  let n := code c in
  ((9 <=? n) && (n <=? 13) || (28 <=? n) && (n <=? 32)
   || (n =? 133) || (n =? 160))%N.

Fixpoint lstrip (s : string) : string :=
  match s with
  | String c s' => if isspace c then lstrip s' else s
  | EmptyString => EmptyString
  end.

Fixpoint rev_onto (s acc : string) : string :=
  match s with
  | String c s' => rev_onto s' (String c acc)
  | EmptyString => acc
  end.

Definition rev (s : string) : string := rev_onto s EmptyString.

Definition rstrip (s : string) : string := rev (lstrip (rev s)).

(** [s.strip()] *)
Definition strip (s : string) : string := rstrip (lstrip s).

(** [str.lower] on code points below 256: A..Z and the Latin-1 capitals. *)
Definition lower_char (c : ascii) : ascii :=
  let n := code c in
  if ((65 <=? n) && (n <=? 90)
      || (192 <=? n) && (n <=? 222) && negb (n =? 215))%N
  then ascii_of_N (n + 32) else c.

Fixpoint lower (s : string) : string :=
  match s with
  | String c s' => String (lower_char c) (lower s')
  | EmptyString => EmptyString
  end.

(** [s[:n]] *)
Definition take (n : nat) (s : string) : string := String.substring 0 n s.

(** [s[n:]] *)
Fixpoint drop (n : nat) (s : string) : string :=
  match n, s with
  | O, _ => s
  | S n', String _ s' => drop n' s'
  | S _, EmptyString => EmptyString
  end.

(** Truthiness of a string, and [a or b] on strings. *)
Definition nonempty (s : string) : bool :=
  match s with EmptyString => false | String _ _ => true end.

Definition or (a b : string) : string := if nonempty a then a else b.

(** [s.rfind(c)]: the greatest index holding [c], or [-1]. *)
Fixpoint rfind_from (c : ascii) (s : string) (i : Z) (last : Z) : Z :=
  match s with
  | EmptyString => last
  | String d s' =>
      rfind_from c s' (i + 1) (if Ascii.eqb d c then i else last)
  end.

Definition rfind (c : ascii) (s : string) : Z := rfind_from c s 0 (-1).

(** [s[i:i+1]] for [0 <= i]. *)
Definition at_index (s : string) (i : Z) : option ascii :=
  if (i <? 0)%Z then None else String.get (Z.to_nat i) s.

(** Decimal digits of a natural number, left-padded with zeros to
    [width] as [%02d] and [%04d] do. *)
Fixpoint digits_fuel (fuel : nat) (n : N) (acc : string) : string :=
  match fuel with
  | O => acc
  | S fuel' =>
      let acc' := String (ascii_of_N (48 + n mod 10)) acc in
      if (n / 10 =? 0)%N then acc' else digits_fuel fuel' (n / 10)%N acc'
  end.

Definition decimal (n : N) : string :=
  digits_fuel (S (N.to_nat (N.log2 n))) n EmptyString.

Fixpoint zeros (k : nat) : string :=
  match k with O => EmptyString | S k' => String "0" (zeros k') end.

Definition padded (width : nat) (n : N) : string :=
  let d := decimal n in
  zeros (width - String.length d) ++ d.

End Str.

(** ** [os.path.splitext] (posixpath)

    The extension starts at the last dot of the last path component,
    provided some character other than a dot precedes it there. *)

Fixpoint has_non_dot (p : string) (filenameIndex : Z) (steps : nat) : bool :=
  match steps with
  | O => false
  | S steps' =>
      match Str.at_index p filenameIndex with
      | Some c =>
          if Ascii.eqb c "." then has_non_dot p (filenameIndex + 1) steps'
          else true
      | None => true
      end
  end.

Definition splitext (p : string) : string * string :=
  let sepIndex := Str.rfind "/" p in
  let dotIndex := Str.rfind "." p in
  if (dotIndex >? sepIndex)
     && has_non_dot p (sepIndex + 1) (Z.to_nat (dotIndex - (sepIndex + 1)))
  then (Str.take (Z.to_nat dotIndex) p, Str.drop (Z.to_nat dotIndex) p)
  else (p, EmptyString).

(** Whether a character occurs in a string. *)
Fixpoint has_char (c : ascii) (s : string) : bool :=
  match s with
  | EmptyString => false
  | String d s' => Ascii.eqb d c || has_char c s'
  end.

(** ** Dynamic operations on values *)

Fixpoint dict_get (k : string) (d : dict) : option pyval :=
  match d with
  | [] => None
  | (k', v) :: d' => if String.eqb k' k then Some v else dict_get k d'
  end.

(** [k in d] *)
Definition dict_contains (k : string) (d : dict) : bool :=
  match dict_get k d with Some _ => true | None => false end.

(** [d[k] = v]: replaces in place, or appends a new key. *)
Fixpoint dict_set (k : string) (v : pyval) (d : dict) : dict :=
  match d with
  | [] => [(k, v)]
  | (k', v') :: d' =>
      if String.eqb k' k then (k', v) :: d' else (k', v') :: dict_set k v d'
  end.

(** [{**d1, **d2}] *)
Definition dict_update (d1 d2 : dict) : dict :=
  fold_left (fun d kv => dict_set (fst kv) (snd kv) d) d2 d1.

(** [v[k]] with a string subscript. *)
Definition subscript (v : pyval) (k : string) : Result pyval :=
  match v with
  | PDict d =>
      match dict_get k d with
      | Some x => Ok x
      | None => Raise (KeyError (PStr k))
      end
  | PList _ =>
      Raise (TypeError "list indices must be integers or slices, not str")
  | PStr _ => Raise (TypeError "string indices must be integers, not 'str'")
  | _ => Raise (TypeError ("'" ++ type_name v ++ "' object is not subscriptable"))
  end.

(** [v[0]] *)
Definition subscript0 (v : pyval) : Result pyval :=
  match v with
  | PList (x :: _) => Ok x
  | PList [] => Raise (IndexError "list index out of range")
  | PStr (String c _) => Ok (PStr (String c EmptyString))
  | PStr EmptyString => Raise (IndexError "string index out of range")
  | PDict _ => Raise (KeyError (PInt 0))
  | _ => Raise (TypeError ("'" ++ type_name v ++ "' object is not subscriptable"))
  end.

(** [v.get(k, default)] *)
Definition get_default (v : pyval) (k : string) (default : pyval) : Result pyval :=
  match v with
  | PDict d =>
      Ok (match dict_get k d with Some x => x | None => default end)
  | _ =>
      Raise (AttributeError ("'" ++ type_name v ++ "' object has no attribute 'get'"))
  end.

(** The integer a value compares as ([bool] is a subclass of [int]). *)
Definition as_int (v : pyval) : option Z :=
  match v with
  | PInt n => Some n
  | PBool b => Some (if b then 1 else 0)
  | _ => None
  end.

(** [v > n] for an integer [n]. *)
Definition gt_int (v : pyval) (n : Z) : Result bool :=
  match as_int v with
  | Some m => Ok (m >? n)
  | None =>
      Raise (TypeError ("'>' not supported between instances of '"
                        ++ type_name v ++ "' and 'int'"))
  end.

(** [v.lower()] *)
Definition str_lower (v : pyval) : Result string :=
  match v with
  | PStr s => Ok (Str.lower s)
  | _ =>
      Raise (AttributeError ("'" ++ type_name v ++ "' object has no attribute 'lower'"))
  end.

(** ** [int(s)] for the configuration

    Surrounding whitespace is dropped, one sign is allowed, and single
    underscores may separate digits. *)

Definition digit_value (c : ascii) : option Z :=
  let n := Str.code c in
  if ((48 <=? n) && (n <=? 57))%N then Some (Z.of_N n - 48) else None.

Fixpoint parse_digits (s : string) (acc : Z) (after_digit : bool) : option Z :=
  match s with
  | EmptyString => if after_digit then Some acc else None
  | String c s' =>
      match digit_value c with
      | Some d => parse_digits s' (10 * acc + d) true
      | None =>
          if Ascii.eqb c "_" && after_digit
          then parse_digits s' acc false
          else None
      end
  end.

Definition py_int (s : string) : option Z :=
  match Str.strip s with
  | String "-" s' => option_map Z.opp (parse_digits s' 0 false)
  | String "+" s' => parse_digits s' 0 false
  | s' => parse_digits s' 0 false
  end.

(** ** Time: [datetime.utcnow()] values and their two renderings *)

Record datetime : Type := {
  year : N; month : N; day : N;
  hour : N; minute : N; second : N; microsecond : N
}.

(** [d.strftime('%Y/%m/%d')] *)
Definition strftime_Ymd (d : datetime) : string :=
  Str.padded 4 (year d) ++ "/" ++ Str.padded 2 (month d) ++ "/"
  ++ Str.padded 2 (day d).

(** [d.isoformat()] of a naive datetime; the fraction is printed only when
    it is not zero. *)
Definition isoformat (d : datetime) : string :=
  Str.padded 4 (year d) ++ "-" ++ Str.padded 2 (month d) ++ "-"
  ++ Str.padded 2 (day d) ++ "T" ++ Str.padded 2 (hour d) ++ ":"
  ++ Str.padded 2 (minute d) ++ ":" ++ Str.padded 2 (second d)
  ++ (if (microsecond d =? 0)%N then EmptyString
      else "." ++ Str.padded 6 (microsecond d)).

(** ** Collaborators and the world *)

Record Tag : Type := { tag_Key : string; tag_Value : string }.

(** The client calls the module makes, with their keyword arguments. *)
Inductive ApiCall : Type :=
| download_file (Bucket Key : pyval) (Filename : string)
| copy_object (CopySource_Bucket CopySource_Key : pyval)
              (Bucket Key : string) (Metadata : dict)
              (MetadataDirective : string)
| delete_object (Bucket Key : pyval)
| put_object_tagging (Bucket Key : pyval) (TagSet : list Tag)
| publish (TopicArn Subject Message : string).

Record CompletedProcess : Type := {
  returncode : Z; stdout : string; stderr : string
}.

(** What [subprocess.run] does: it returns once the child has exited, or
    raises ([TimeoutExpired] when the child outlives [timeout]). *)
Inductive RunOutcome : Type :=
| Exited (p : CompletedProcess)
| RunRaised (e : exn).

(** One entry of the trace.  A client call is recorded with [None] when it
    returned and with [Some msg] when it raised [ClientError msg]. *)
Inductive Effect : Type :=
| Print (line : string)
| Api (call : ApiCall) (error : option string)
| Run (args : list string) (timeout : Z) (outcome : RunOutcome).

Record World : Type := {
  fs : gset string;       (* the local paths that exist *)
  ticks : nat;            (* how many times the clock was read *)
  trace : list Effect     (* oldest first *)
}.

(** The module-level configuration, read from [os.environ] at import. *)
Record Config : Type := {
  QUARANTINE_BUCKET : string;
  ALERT_TOPIC_ARN : string;
  CLAM_DB_PATH : string;
  CLAMSCAN_PATH : string;
  MAX_FILE_SIZE : Z
}.

Definition environ_get (environ : gmap string string) (k default : string)
  : string :=
  match environ !! k with Some v => v | None => default end.

(** [None] when [int(...)] rejects MAX_FILE_SIZE_MB and the import fails. *)
Definition load_config (environ : gmap string string) : option Config :=
  match py_int (environ_get environ "MAX_FILE_SIZE_MB" "500") with
  | Some mb =>
      Some {| QUARANTINE_BUCKET := environ_get environ "QUARANTINE_BUCKET" "";
              ALERT_TOPIC_ARN := environ_get environ "ALERT_TOPIC_ARN" "";
              CLAM_DB_PATH :=
                environ_get environ "CLAM_DB_PATH" "/opt/clamav/share/clamav";
              CLAMSCAN_PATH :=
                environ_get environ "CLAMSCAN_PATH" "/opt/clamav/bin/clamscan";
              MAX_FILE_SIZE := mb * 1024 * 1024 |}
  | None => None
  end.

(** File types to skip (already validated media files). *)
Definition SKIP_EXTENSIONS : gset string :=
  list_to_set
    [".jpg"; ".jpeg"; ".png"; ".gif"; ".webp"; ".heic"; ".heif"; ".avif";
     ".mp4"; ".mov"; ".webm"; ".m4v"; ".avi";
     ".mp3"; ".m4a"; ".wav"; ".aac"; ".flac"; ".ogg"].

(** Everything the handler does not decide: the configuration, the text
    renderings of the interpreter ([repr], [json.dumps]) and the answers of
    the outside world, each a function of the world at the moment of the
    call.  The storage and notification clients report a failure as
    botocore's [ClientError] (the provider-defined error of the storage
    and notification interfaces); [boto] gives its message.  The fetch and
    the engine may leave the local file system in any state. *)
Record Env : Type := {
  cfg : Config;
  repr : pyval -> string;
  json_dumps : option nat -> pyval -> string;
  clock : World -> datetime;
  mkstemp : World -> string;
  boto : World -> ApiCall -> option string;
  fetched_fs : World -> ApiCall -> gset string;
  clamscan : World -> list string -> Z -> RunOutcome * gset string
}.

(** ** The effect monad: state passing with exceptions *)

Definition M (A : Type) : Type := World -> Result A * World.

Definition ret {A} (a : A) : M A := fun w => (Ok a, w).

Definition raise {A} (e : exn) : M A := fun w => (Raise e, w).

Definition bind {A B} (m : M A) (k : A -> M B) : M B :=
  fun w =>
    match m w with
    | (Ok a, w') => k a w'
    | (Raise e, w') => (Raise e, w')
    end.

Definition lift {A} (r : Result A) : M A := fun w => (r, w).

Notation "x <- m ;; k" := (bind m (fun x => k))
  (at level 100, m at next level, right associativity).
Notation "m ;;; k" := (bind m (fun _ => k))
  (at level 100, right associativity).

(** [try: body finally: cleanup]: the cleanup runs on every exit of the
    body; an exception of the cleanup itself replaces the body's outcome. *)
Definition try_finally {A} (body : M A) (cleanup : M unit) : M A :=
  fun w =>
    let (r, w1) := body w in
    match cleanup w1 with
    | (Ok _, w2) => (r, w2)
    | (Raise e, w2) => (Raise e, w2)
    end.

(** [try: body except ClientError as e: handle(e)] *)
Definition try_except_ClientError {A} (body : M A) (handle : string -> M A)
  : M A :=
  fun w =>
    match body w with
    | (Raise (ClientError msg), w') => handle msg w'
    | other => other
    end.

(** [try: body except Exception as e: handle(e)] *)
Definition try_except_Exception {A} (body : M A) (handle : exn -> M A)
  : M A :=
  fun w =>
    match body w with
    | (Raise e, w') => handle e w'
    | other => other
    end.

Definition record (e : Effect) (w : World) : World :=
  {| fs := fs w; ticks := ticks w; trace := (trace w ++ [e])%list |}.

Definition with_fs (paths : gset string) (w : World) : World :=
  {| fs := paths; ticks := ticks w; trace := trace w |}.

Definition print (line : string) : M unit :=
  fun w => (Ok tt, record (Print line) w).

(** [str(e)] needs [repr] for the key of a [KeyError] and the command of a
    [TimeoutExpired]. *)
Definition str_exn (repr : pyval -> string) (e : exn) : string :=
  match e with
  | ValueError msg | IndexError msg | TypeError msg | AttributeError msg
  | ClientError msg | OSError msg => msg
  | KeyError k => repr k
  | TimeoutExpired cmd timeout =>
      "Command '" ++ repr (PList (map PStr cmd)) ++ "' timed out after "
      ++ repr (PInt timeout) ++ " seconds"
  end.

(** ** The module *)

Record ScanResult : Type := { infected : bool; details : string }.

Record Response : Type := { statusCode : Z; body : string }.

Section Scanner.

Variable E : Env.

(** [str(v)] as an f-string field prints it. *)
Definition str (v : pyval) : string :=
  match v with PStr s => s | _ => repr E v end.

(** *** Primitive effects *)

Definition utcnow : M datetime :=
  fun w =>
    (Ok (clock E w),
     {| fs := fs w; ticks := S (ticks w); trace := trace w |}).

(** A call on the [s3] or [sns] client. *)
Definition client (call : ApiCall) : M unit :=
  fun w =>
    match boto E w call with
    | None => (Ok tt, record (Api call None) w)
    | Some msg => (Raise (ClientError msg), record (Api call (Some msg)) w)
    end.

(** [s3.download_file(bucket, key, path)] also writes to the local disk. *)
Definition s3_download_file (bucket key : pyval) (path : string) : M unit :=
  fun w =>
    let call := download_file bucket key path in
    let w' := with_fs (fetched_fs E w call) w in
    match boto E w call with
    | None => (Ok tt, record (Api call None) w')
    | Some msg => (Raise (ClientError msg), record (Api call (Some msg)) w')
    end.

(** [with tempfile.NamedTemporaryFile(delete=False) as f: f.name] *)
Definition NamedTemporaryFile : M string :=
  fun w => let p := mkstemp E w in (Ok p, with_fs ({[ p ]} ∪ fs w) w).

Definition os_path_exists (path : string) : M bool :=
  fun w => (Ok (bool_decide (path ∈ fs w)), w).

Definition os_unlink (path : string) : M unit :=
  fun w =>
    if bool_decide (path ∈ fs w)
    then (Ok tt, with_fs (fs w ∖ {[ path ]}) w)
    else (Raise (OSError "No such file or directory"), w).

Definition subprocess_run (args : list string) (timeout : Z)
  : M CompletedProcess :=
  fun w =>
    let (outcome, paths) := clamscan E w args timeout in
    let w' := record (Run args timeout outcome) (with_fs paths w) in
    match outcome with
    | Exited p => (Ok p, w')
    | RunRaised e => (Raise e, w')
    end.

(** *** [send_alert] *)
Definition send_alert (alert_type : string) (data : dict) : M unit :=
  if negb (Str.nonempty (ALERT_TOPIC_ARN (cfg E))) then
    print ("Alert (no SNS): " ++ alert_type ++ " - " ++ repr E (PDict data))
  else
    try_except_ClientError
      (now <- utcnow ;;
       let message :=
         dict_update [("type", PStr alert_type);
                      ("timestamp", PStr (isoformat now))] data in
       client (publish (ALERT_TOPIC_ARN (cfg E))
                       ("[SECURITY ALERT] " ++ alert_type)
                       (json_dumps E (Some 2%nat) (PDict message))) ;;;
       print ("Alert sent: " ++ alert_type))
      (fun e => print ("Failed to send alert: " ++ e)).

(** *** [tag_object] *)
Definition tag_object (bucket key : pyval) (status details : string)
  : M unit :=
  try_except_ClientError
    (now <- utcnow ;;
     let tags := [ {| tag_Key := "virus-scan"; tag_Value := status |};
                   {| tag_Key := "scan-date"; tag_Value := isoformat now |} ] in
     let tags :=
       if Str.nonempty details
       then (tags ++ [ {| tag_Key := "scan-details";
                          tag_Value := Str.take 256 details |} ])%list
       else tags in
     client (put_object_tagging bucket key tags))
    (fun e => print ("Failed to tag object: " ++ e)).

(** *** [handle_infected_file] *)
Definition handle_infected_file (bucket key : pyval) (scan_result : ScanResult)
  : M unit :=
  today <- utcnow ;;
  let quarantine_key :=
    "infected/" ++ strftime_Ymd today ++ "/" ++ str bucket ++ "/" ++ str key in
  print ("Quarantining infected file to s3://"
         ++ QUARANTINE_BUCKET (cfg E) ++ "/" ++ quarantine_key) ;;;
  try_except_ClientError
    (now <- utcnow ;;
     client (copy_object bucket key (QUARANTINE_BUCKET (cfg E)) quarantine_key
               [("original-bucket", bucket);
                ("original-key", key);
                ("scan-result", PStr (Str.take 256 (details scan_result)));
                ("quarantine-date", PStr (isoformat now))]
               "REPLACE") ;;;
     client (delete_object bucket key) ;;;
     print ("Deleted original file from s3://" ++ str bucket ++ "/" ++ str key) ;;;
     send_alert "MALWARE_DETECTED"
       [("bucket", bucket);
        ("key", key);
        ("scan_result", PStr (details scan_result));
        ("quarantine_location",
          PStr ("s3://" ++ QUARANTINE_BUCKET (cfg E) ++ "/" ++ quarantine_key));
        ("action", PStr "File quarantined and deleted from source")])
    (fun e =>
       print ("Error quarantining file: " ++ e) ;;;
       send_alert "QUARANTINE_FAILED"
         [("bucket", bucket);
          ("key", key);
          ("scan_result", PStr (details scan_result));
          ("error", PStr e)] ;;;
       raise (ClientError e)).

(** *** [scan_file] *)

Definition clamscan_args (tmp_path : string) : list string :=
  [CLAMSCAN_PATH (cfg E);
   "--database=" ++ CLAM_DB_PATH (cfg E);
   "--no-summary";
   "--infected";
   tmp_path].

(** The body of the [try]. *)
Definition scan_body (bucket key : pyval) (tmp_path : string) : M ScanResult :=
  print ("Downloading s3://" ++ str bucket ++ "/" ++ str key
         ++ " to " ++ tmp_path) ;;;
  s3_download_file bucket key tmp_path ;;;
  available <- os_path_exists (CLAMSCAN_PATH (cfg E)) ;;
  if negb available then
    print "ClamAV not available - using placeholder scan" ;;;
    ret {| infected := false; details := "ClamAV not available" |}
  else
    print ("Scanning " ++ tmp_path ++ " with ClamAV...") ;;;
    result <- subprocess_run (clamscan_args tmp_path) 300 ;;
    if (returncode result =? 0)%Z then
      print "File is clean" ;;;
      ret {| infected := false; details := "No threats detected" |}
    else if (returncode result =? 1)%Z then
      let details := Str.or (Str.strip (stdout result))
                            (Str.strip (stderr result)) in
      print ("VIRUS DETECTED: " ++ details) ;;;
      ret {| infected := true; details := details |}
    else
      let error := Str.or (Str.strip (stderr result))
                          (Str.strip (stdout result)) in
      print ("ClamAV error: " ++ error) ;;;
      ret {| infected := false; details := "Scan error: " ++ error |}.

(** The [finally] block. *)
Definition scan_cleanup (tmp_path : string) : M unit :=
  present <- os_path_exists tmp_path ;;
  if present then os_unlink tmp_path else ret tt.

Definition scan_file (bucket key : pyval) : M ScanResult :=
  tmp_path <- NamedTemporaryFile ;;
  try_finally (scan_body bucket key tmp_path) (scan_cleanup tmp_path).

(** *** [parse_event] *)

Definition parse_event (event : dict) : Result (pyval * pyval * pyval) :=
  let bind_r {A B} (r : Result A) (k : A -> Result B) : Result B :=
    match r with Ok a => k a | Raise e => Raise e end in
  if dict_contains "detail" event then
    bind_r (subscript (PDict event) "detail") (fun detail =>
    bind_r (subscript detail "bucket") (fun b =>
    bind_r (subscript b "name") (fun bucket =>
    bind_r (subscript detail "object") (fun o =>
    bind_r (subscript o "key") (fun key =>
    bind_r (subscript detail "object") (fun o' =>
    bind_r (get_default o' "size" (PInt 0)) (fun size =>
    Ok (bucket, key, size))))))))
  else if dict_contains "Records" event then
    bind_r (subscript (PDict event) "Records") (fun records =>
    bind_r (subscript0 records) (fun record =>
    bind_r (subscript record "s3") (fun s =>
    bind_r (subscript s "bucket") (fun b =>
    bind_r (subscript b "name") (fun bucket =>
    bind_r (subscript record "s3") (fun s' =>
    bind_r (subscript s' "object") (fun o =>
    bind_r (subscript o "key") (fun key =>
    bind_r (subscript record "s3") (fun s'' =>
    bind_r (subscript s'' "object") (fun o' =>
    bind_r (get_default o' "size" (PInt 0)) (fun size =>
    Ok (bucket, key, size))))))))))))
  else
    Raise (ValueError ("Unknown event format: " ++ repr E (PDict event))).

(** *** [handler] *)

Definition handler_body (event : dict) : M Response :=
  parsed <- lift (parse_event event) ;;
  let '(bucket, key, size) := parsed in
  print ("Processing: s3://" ++ str bucket ++ "/" ++ str key
         ++ " (" ++ str size ++ " bytes)") ;;;
  too_large <- lift (gt_int size (MAX_FILE_SIZE (cfg E))) ;;
  if too_large then
    print ("File too large to scan: " ++ str size ++ " bytes (max: "
           ++ repr E (PInt (MAX_FILE_SIZE (cfg E))) ++ ")") ;;;
    tag_object bucket key "skipped" "File too large" ;;;
    ret {| statusCode := 200; body := "File too large - skipped" |}
  else
    lowered <- lift (str_lower key) ;;
    let ext := snd (splitext lowered) in
    if bool_decide (ext ∈ SKIP_EXTENSIONS) then
      print ("Media file - tagging as scanned: " ++ str key) ;;;
      tag_object bucket key "clean" "Media file - basic validation" ;;;
      ret {| statusCode := 200;
             body := "Media file - basic validation passed" |}
    else
      scan_result <- scan_file bucket key ;;
      if infected scan_result then
        handle_infected_file bucket key scan_result ;;;
        ret {| statusCode := 200; body := "Infected file quarantined" |}
      else
        tag_object bucket key "clean" "" ;;;
        ret {| statusCode := 200; body := "File scanned - clean" |}.

Definition handler (event : dict) (context : pyval) : M Response :=
  print ("Event received: " ++ json_dumps E None (PDict event)) ;;;
  try_except_Exception
    (handler_body event)
    (fun e =>
       print ("Error scanning file: " ++ str_exn (repr E) e) ;;;
       send_alert "SCAN_ERROR"
         [("error", PStr (str_exn (repr E) e)); ("event", PDict event)] ;;;
       raise e).

End Scanner.

(** ** Observations on a run *)

Definition outcome {A} (m : M A) (w : World) : Result A := fst (m w).

Definition after {A} (m : M A) (w : World) : World := snd (m w).

(** The effects a computation adds to the trace when started in [w]. *)
Definition emitted {A} (m : M A) (w : World) : list Effect :=
  drop (length (trace w)) (trace (after m w)).

Definition is_engine_run (e : Effect) : bool :=
  match e with Run _ _ _ => true | _ => false end.

Definition is_download (e : Effect) : bool :=
  match e with Api (download_file _ _ _) _ => true | _ => false end.

Definition is_delete (e : Effect) : bool :=
  match e with Api (delete_object _ _) _ => true | _ => false end.

(** The tag set [tag_object] writes for a status, a timestamp and optional
    details. *)
Definition tag_set (status : string) (now : datetime) (details : string)
  : list Tag :=
  ([ {| tag_Key := "virus-scan"; tag_Value := status |};
     {| tag_Key := "scan-date"; tag_Value := isoformat now |} ]
   ++ (if Str.nonempty details
       then [ {| tag_Key := "scan-details"; tag_Value := Str.take 256 details |} ]
       else []))%list.

(** The object was tagged: a tag-writing call for it is in the trace,
    whatever the storage service answered. *)
Definition tagged (bucket key : pyval) (status details : string)
    (evs : list Effect) : Prop :=
  exists now error,
    In (Api (put_object_tagging bucket key (tag_set status now details)) error)
       evs.

(** The observable form of an alert: a publication on the configured topic,
    or a log line when no topic is configured. *)
Definition alert (E : Env) (alert_type : string) (data : dict)
    (now : datetime) (error : option string) : Effect :=
  if Str.nonempty (ALERT_TOPIC_ARN (cfg E)) then
    Api (publish (ALERT_TOPIC_ARN (cfg E))
           ("[SECURITY ALERT] " ++ alert_type)
           (json_dumps E (Some 2%nat)
              (PDict (dict_update [("type", PStr alert_type);
                                   ("timestamp", PStr (isoformat now))] data))))
        error
  else
    Print ("Alert (no SNS): " ++ alert_type ++ " - " ++ repr E (PDict data)).

Definition alerted (E : Env) (alert_type : string) (data : dict)
    (evs : list Effect) : Prop :=
  exists now error, In (alert E alert_type data now error) evs.

(** Whether an effect is an alert of the given type, whatever its payload. *)
Definition is_alert (alert_type : string) (e : Effect) : bool :=
  match e with
  | Api (publish _ subject _) _ =>
      String.eqb subject ("[SECURITY ALERT] " ++ alert_type)
  | Print line =>
      String.prefix ("Alert (no SNS): " ++ alert_type ++ " - ") line
  | _ => false
  end.

(** Which collaborator an effect concerns. *)
Inductive kind : Type :=
| KPrint | KDownload | KCopy | KDelete | KTagging | KPublish | KRun.

Definition kind_of (e : Effect) : kind :=
  match e with
  | Print _ => KPrint
  | Api (download_file _ _ _) _ => KDownload
  | Api (copy_object _ _ _ _ _ _) _ => KCopy
  | Api (delete_object _ _) _ => KDelete
  | Api (put_object_tagging _ _ _) _ => KTagging
  | Api (publish _ _ _) _ => KPublish
  | Run _ _ _ => KRun
  end.

(** Every effect of [evs] is of one of the kinds [ks]. *)
Definition only (ks : list kind) (evs : list Effect) : Prop :=
  Forall (fun e => In (kind_of e) ks) evs.

(** The object a storage call is about. *)
Definition concerns (bucket key : pyval) (e : Effect) : Prop :=
  match e with
  | Api (download_file b k _) _
  | Api (copy_object b k _ _ _ _) _
  | Api (delete_object b k) _
  | Api (put_object_tagging b k _) _ => b = bucket /\ k = key
  | _ => True
  end.

(** ** Further observations *)

Definition is_tagging (e : Effect) : bool :=
  match e with Api (put_object_tagging _ _ _) _ => true | _ => false end.

Definition is_copy (e : Effect) : bool :=
  match e with Api (copy_object _ _ _ _ _ _) _ => true | _ => false end.

(** [v[k1][k2]...] where every step is a lookup in a dict; [None] when a
    step meets a missing key or a value that is not a dict. *)
Fixpoint lookup_path (v : pyval) (keys : list string) : option pyval :=
  match keys with
  | [] => Some v
  | k :: keys' =>
      match v with
      | PDict d =>
          match dict_get k d with
          | Some x => lookup_path x keys'
          | None => None
          end
      | _ => None
      end
  end.

(** [a] is immediately followed by [b] in the trace. *)
Definition next_to (a b : Effect) (evs : list Effect) : Prop :=
  exists before after, evs = (before ++ a :: b :: after)%list.


Definition is_publish (e : Effect) : bool :=
  match e with Api (publish _ _ _) _ => true | _ => false end.


(** ** A scripted environment, to run the handler on concrete inputs *)

Module Demo.

Definition show (v : pyval) : string :=
  match v with
  | PNone => "None"
  | PBool true => "True"
  | PBool false => "False"
  | PInt n => (if (n <? 0)%Z then "-" else "") ++ Str.decimal (Z.to_N (Z.abs n))
  | PStr s => "'" ++ s ++ "'"
  | PList _ => "[...]"
  | PDict _ => "{...}"
  end.

Definition config (topic : string) : Config :=
  {| QUARANTINE_BUCKET := "quarantine";
     ALERT_TOPIC_ARN := topic;
     CLAM_DB_PATH := "/opt/clamav/share/clamav";
     CLAMSCAN_PATH := "/opt/clamav/bin/clamscan";
     MAX_FILE_SIZE := 500 * 1024 * 1024 |}.

Definition noon : datetime :=
  {| year := 2024; month := 3; day := 5;
     hour := 12; minute := 0; second := 7; microsecond := 0 |}.

(** A script: which client calls fail, whether the engine is installed,
    and what a run of the engine does. *)
Record Script : Type := {
  topic : string;
  failing : ApiCall -> option string;
  engine_installed : bool;
  engine : RunOutcome;
  fetch_keeps_file : bool
}.

Definition env (s : Script) : Env :=
  {| cfg := config (topic s);
     repr := show;
     json_dumps := fun _ v => show v;
     clock := fun _ => noon;
     mkstemp := fun _ => "/tmp/tmpa1b2c3";
     boto := fun _ call => failing s call;
     fetched_fs := fun w _ =>
       let disk := if engine_installed s
                   then {[ "/opt/clamav/bin/clamscan" ]} ∪ fs w
                   else fs w ∖ {[ "/opt/clamav/bin/clamscan" ]} in
       if fetch_keeps_file s then disk else disk ∖ {[ "/tmp/tmpa1b2c3" ]};
     clamscan := fun w _ _ => (engine s, fs w) |}.

Definition all_fine (_ : ApiCall) : option string := None.



Definition fetch_denied (call : ApiCall) : option string :=
  match call with
  | download_file _ _ _ => Some "NoSuchKey"
  | _ => None
  end.

Definition exits (code : Z) (out err : string) : RunOutcome :=
  Exited {| returncode := code; stdout := out; stderr := err |}.

Definition script (failing : ApiCall -> option string) (installed : bool)
    (engine : RunOutcome) : Script :=
  {| topic := "arn:aws:sns:eu-west-1:1:alerts";
     failing := failing;
     engine_installed := installed;
     engine := engine;
     fetch_keeps_file := true |}.

Definition empty_world : World := {| fs := ∅; ticks := 0; trace := [] |}.

(** An EventBridge notification and a direct S3 notification. *)
Definition eventbridge (bucket key : string) (size : Z) : dict :=
  [("detail",
    PDict [("bucket", PDict [("name", PStr bucket)]);
           ("object", PDict [("key", PStr key); ("size", PInt size)])])].

Definition s3_record (bucket key : string) (size : Z) : pyval :=
  PDict [("s3",
          PDict [("bucket", PDict [("name", PStr bucket)]);
                 ("object", PDict [("key", PStr key); ("size", PInt size)])])].

Definition s3_notification (records : list pyval) : dict :=
  [("Records", PList records)].

(** The inputs of the worked scenarios. *)
Definition pdf : dict := eventbridge "uploads" "docs/report.pdf" 2048.

Definition clamscan_cmd : list string :=
  ["/opt/clamav/bin/clamscan"; "--database=/opt/clamav/share/clamav";
   "--no-summary"; "--infected"; "/tmp/tmpa1b2c3"].

Definition eicar : CompletedProcess :=
  {| returncode := 1;
     stdout := "/tmp/tmpa1b2c3: Eicar-Test-Signature FOUND" ++ String "010" "";
     stderr := "" |}.


End Demo.

(** Further scripts and inputs. *)
Module Cases.

Import Demo.

Definition delete_denied (call : ApiCall) : option string :=
  match call with
  | delete_object _ _ => Some "AccessDenied"
  | _ => None
  end.

(** An EventBridge notification whose size is a text. *)
Definition text_size : dict :=
  [("detail",
    PDict [("bucket", PDict [("name", PStr "uploads")]);
           ("object", PDict [("key", PStr "docs/report.pdf");
                             ("size", PStr "2048")])])].

(** An EventBridge notification without a size. *)
Definition no_size : dict :=
  [("detail",
    PDict [("bucket", PDict [("name", PStr "uploads")]);
           ("object", PDict [("key", PStr "docs/report.pdf")])]);
   ("Records", PList [])].

Definition clean_run : CompletedProcess :=
  {| returncode := 0; stdout := ""; stderr := "" |}.

Definition quarantine_copy_call : ApiCall :=
  copy_object (PStr "uploads") (PStr "docs/report.pdf") "quarantine"
    "infected/2024/03/05/uploads/docs/report.pdf"
    [("original-bucket", PStr "uploads");
     ("original-key", PStr "docs/report.pdf");
     ("scan-result", PStr "/tmp/tmpa1b2c3: Eicar-Test-Signature FOUND");
     ("quarantine-date", PStr "2024-03-05T12:00:07")]
    "REPLACE".

Definition fetch_call : ApiCall :=
  download_file (PStr "uploads") (PStr "docs/report.pdf") "/tmp/tmpa1b2c3".

Definition clean_tags : list Tag :=
  [ {| tag_Key := "virus-scan"; tag_Value := "clean" |};
    {| tag_Key := "scan-date"; tag_Value := "2024-03-05T12:00:07" |} ].

End Cases.

(** ** Reasoning about runs

    [runs m w r evs w'] : started in [w], the computation [m] ends with
    outcome [r] in world [w'], having added exactly [evs] to the trace. *)

Definition runs {A} (m : M A) (w : World) (r : Result A)
    (evs : list Effect) (w' : World) : Prop :=
  m w = (r, w') /\ trace w' = (trace w ++ evs)%list.

(** ** What each function can do

    For every function of the module, the complete list of its runs: the
    outcome together with the effects, one constructor per path through
    the code.  The lemmas named [*_runs] show that the code has no other
    run. *)

Section Paths.

Variable E : Env.

Let topic : string := ALERT_TOPIC_ARN (cfg E).

Inductive alert_path (alert_type : string) (data : dict)
  : list Effect -> Prop :=
| alert_logged now error :
    Str.nonempty topic = false ->
    alert_path alert_type data [alert E alert_type data now error]
| alert_sent now :
    Str.nonempty topic = true ->
    alert_path alert_type data
      [alert E alert_type data now None;
       Print ("Alert sent: " ++ alert_type)]
| alert_undelivered now msg :
    Str.nonempty topic = true ->
    alert_path alert_type data
      [alert E alert_type data now (Some msg);
       Print ("Failed to send alert: " ++ msg)].

Inductive tag_path (bucket key : pyval) (status details : string)
  : list Effect -> Prop :=
| tag_written now :
    tag_path bucket key status details
      [Api (put_object_tagging bucket key (tag_set status now details)) None]
| tag_refused now msg :
    tag_path bucket key status details
      [Api (put_object_tagging bucket key (tag_set status now details))
           (Some msg);
       Print ("Failed to tag object: " ++ msg)].

(** The quarantine location, the copy request and the two reports of
    [handle_infected_file]. *)
Definition quarantine_key (today : datetime) (bucket key : pyval) : string :=
  "infected/" ++ strftime_Ymd today ++ "/" ++ str E bucket ++ "/" ++ str E key.

Definition quarantine_copy (today now : datetime) (bucket key : pyval)
    (scan_result : ScanResult) : ApiCall :=
  copy_object bucket key (QUARANTINE_BUCKET (cfg E))
    (quarantine_key today bucket key)
    [("original-bucket", bucket);
     ("original-key", key);
     ("scan-result", PStr (Str.take 256 (details scan_result)));
     ("quarantine-date", PStr (isoformat now))]
    "REPLACE".

Definition malware_report (today : datetime) (bucket key : pyval)
    (scan_result : ScanResult) : dict :=
  [("bucket", bucket);
   ("key", key);
   ("scan_result", PStr (details scan_result));
   ("quarantine_location",
     PStr ("s3://" ++ QUARANTINE_BUCKET (cfg E) ++ "/"
           ++ quarantine_key today bucket key));
   ("action", PStr "File quarantined and deleted from source")].

Definition quarantine_failure_report (bucket key : pyval)
    (scan_result : ScanResult) (msg : string) : dict :=
  [("bucket", bucket);
   ("key", key);
   ("scan_result", PStr (details scan_result));
   ("error", PStr msg)].

Definition quarantining (today : datetime) (bucket key : pyval) : Effect :=
  Print ("Quarantining infected file to s3://" ++ QUARANTINE_BUCKET (cfg E)
         ++ "/" ++ quarantine_key today bucket key).

Inductive quarantine_path (bucket key : pyval) (scan_result : ScanResult)
  : Result unit -> list Effect -> Prop :=
| quarantined today now evs :
    (exists w, today = clock E w) ->
    (exists w, now = clock E w) ->
    alert_path "MALWARE_DETECTED"
      (malware_report today bucket key scan_result) evs ->
    quarantine_path bucket key scan_result (Ok tt)
      ([quarantining today bucket key;
        Api (quarantine_copy today now bucket key scan_result) None;
        Api (delete_object bucket key) None;
        Print ("Deleted original file from s3://" ++ str E bucket ++ "/"
               ++ str E key)] ++ evs)
| copy_failed today now msg evs :
    (exists w, today = clock E w) ->
    (exists w, now = clock E w) ->
    alert_path "QUARANTINE_FAILED"
      (quarantine_failure_report bucket key scan_result msg) evs ->
    quarantine_path bucket key scan_result (Raise (ClientError msg))
      ([quarantining today bucket key;
        Api (quarantine_copy today now bucket key scan_result) (Some msg);
        Print ("Error quarantining file: " ++ msg)] ++ evs)
| delete_failed today now msg evs :
    (exists w, today = clock E w) ->
    (exists w, now = clock E w) ->
    alert_path "QUARANTINE_FAILED"
      (quarantine_failure_report bucket key scan_result msg) evs ->
    quarantine_path bucket key scan_result (Raise (ClientError msg))
      ([quarantining today bucket key;
        Api (quarantine_copy today now bucket key scan_result) None;
        Api (delete_object bucket key) (Some msg);
        Print ("Error quarantining file: " ++ msg)] ++ evs).

(** The verdict [scan_file] derives from a finished engine run. *)
Definition findings (p : CompletedProcess) : string :=
  Str.or (Str.strip (stdout p)) (Str.strip (stderr p)).

Definition engine_error (p : CompletedProcess) : string :=
  Str.or (Str.strip (stderr p)) (Str.strip (stdout p)).

Definition downloading (bucket key : pyval) (tmp_path : string) : Effect :=
  Print ("Downloading s3://" ++ str E bucket ++ "/" ++ str E key
         ++ " to " ++ tmp_path).

Definition scanning (tmp_path : string) : Effect :=
  Print ("Scanning " ++ tmp_path ++ " with ClamAV...").

Inductive scan_path (bucket key : pyval) (tmp_path : string)
  : Result ScanResult -> list Effect -> Prop :=
| fetch_failed msg :
    scan_path bucket key tmp_path (Raise (ClientError msg))
      [downloading bucket key tmp_path;
       Api (download_file bucket key tmp_path) (Some msg)]
| engine_absent w1 :
    CLAMSCAN_PATH (cfg E)
      ∉ fetched_fs E w1 (download_file bucket key tmp_path) ->
    scan_path bucket key tmp_path
      (Ok {| infected := false; details := "ClamAV not available" |})
      [downloading bucket key tmp_path;
       Api (download_file bucket key tmp_path) None;
       Print "ClamAV not available - using placeholder scan"]
| engine_raised w1 e :
    CLAMSCAN_PATH (cfg E)
      ∈ fetched_fs E w1 (download_file bucket key tmp_path) ->
    scan_path bucket key tmp_path (Raise e)
      [downloading bucket key tmp_path;
       Api (download_file bucket key tmp_path) None;
       scanning tmp_path;
       Run (clamscan_args E tmp_path) 300 (RunRaised e)]
| engine_found_nothing w1 p :
    CLAMSCAN_PATH (cfg E)
      ∈ fetched_fs E w1 (download_file bucket key tmp_path) ->
    returncode p = 0 ->
    scan_path bucket key tmp_path
      (Ok {| infected := false; details := "No threats detected" |})
      [downloading bucket key tmp_path;
       Api (download_file bucket key tmp_path) None;
       scanning tmp_path;
       Run (clamscan_args E tmp_path) 300 (Exited p);
       Print "File is clean"]
| engine_found_virus w1 p :
    CLAMSCAN_PATH (cfg E)
      ∈ fetched_fs E w1 (download_file bucket key tmp_path) ->
    returncode p = 1 ->
    scan_path bucket key tmp_path
      (Ok {| infected := true; details := findings p |})
      [downloading bucket key tmp_path;
       Api (download_file bucket key tmp_path) None;
       scanning tmp_path;
       Run (clamscan_args E tmp_path) 300 (Exited p);
       Print ("VIRUS DETECTED: " ++ findings p)]
| engine_failed w1 p :
    CLAMSCAN_PATH (cfg E)
      ∈ fetched_fs E w1 (download_file bucket key tmp_path) ->
    returncode p <> 0 ->
    returncode p <> 1 ->
    scan_path bucket key tmp_path
      (Ok {| infected := false;
             details := "Scan error: " ++ engine_error p |})
      [downloading bucket key tmp_path;
       Api (download_file bucket key tmp_path) None;
       scanning tmp_path;
       Run (clamscan_args E tmp_path) 300 (Exited p);
       Print ("ClamAV error: " ++ engine_error p)].

Definition processing (bucket key size : pyval) : Effect :=
  Print ("Processing: s3://" ++ str E bucket ++ "/" ++ str E key
         ++ " (" ++ str E size ++ " bytes)").

Definition too_large_line (size : pyval) : Effect :=
  Print ("File too large to scan: " ++ str E size ++ " bytes (max: "
         ++ repr E (PInt (MAX_FILE_SIZE (cfg E))) ++ ")").

Definition skipped_response : Response :=
  {| statusCode := 200; body := "File too large - skipped" |}.

Definition media_response : Response :=
  {| statusCode := 200; body := "Media file - basic validation passed" |}.

Definition quarantined_response : Response :=
  {| statusCode := 200; body := "Infected file quarantined" |}.

Definition clean_response : Response :=
  {| statusCode := 200; body := "File scanned - clean" |}.

(** The runs of the [try] block of [handler]. *)
Inductive body_path (event : dict) : Result Response -> list Effect -> Prop :=
| unparsed e :
    parse_event E event = Raise e ->
    body_path event (Raise e) []
| size_not_a_number bucket key size e :
    parse_event E event = Ok (bucket, key, size) ->
    gt_int size (MAX_FILE_SIZE (cfg E)) = Raise e ->
    body_path event (Raise e) [processing bucket key size]
| too_large bucket key size evs :
    parse_event E event = Ok (bucket, key, size) ->
    gt_int size (MAX_FILE_SIZE (cfg E)) = Ok true ->
    tag_path bucket key "skipped" "File too large" evs ->
    body_path event (Ok skipped_response)
      ([processing bucket key size; too_large_line size] ++ evs)
| key_not_a_string bucket key size e :
    parse_event E event = Ok (bucket, key, size) ->
    gt_int size (MAX_FILE_SIZE (cfg E)) = Ok false ->
    str_lower key = Raise e ->
    body_path event (Raise e) [processing bucket key size]
| media bucket key size lowered evs :
    parse_event E event = Ok (bucket, key, size) ->
    gt_int size (MAX_FILE_SIZE (cfg E)) = Ok false ->
    str_lower key = Ok lowered ->
    snd (splitext lowered) ∈ SKIP_EXTENSIONS ->
    tag_path bucket key "clean" "Media file - basic validation" evs ->
    body_path event (Ok media_response)
      ([processing bucket key size;
        Print ("Media file - tagging as scanned: " ++ str E key)] ++ evs)
| scan_raised bucket key size lowered tmp_path e evs :
    parse_event E event = Ok (bucket, key, size) ->
    gt_int size (MAX_FILE_SIZE (cfg E)) = Ok false ->
    str_lower key = Ok lowered ->
    snd (splitext lowered) ∉ SKIP_EXTENSIONS ->
    scan_path bucket key tmp_path (Raise e) evs ->
    body_path event (Raise e) (processing bucket key size :: evs)
| scanned_infected bucket key size lowered tmp_path scan_result evs r evs' :
    parse_event E event = Ok (bucket, key, size) ->
    gt_int size (MAX_FILE_SIZE (cfg E)) = Ok false ->
    str_lower key = Ok lowered ->
    snd (splitext lowered) ∉ SKIP_EXTENSIONS ->
    scan_path bucket key tmp_path (Ok scan_result) evs ->
    infected scan_result = true ->
    quarantine_path bucket key scan_result r evs' ->
    body_path event
      (match r with
       | Ok _ => Ok quarantined_response
       | Raise e => Raise e
       end)
      (processing bucket key size :: evs ++ evs')
| scanned_clean bucket key size lowered tmp_path scan_result evs evs' :
    parse_event E event = Ok (bucket, key, size) ->
    gt_int size (MAX_FILE_SIZE (cfg E)) = Ok false ->
    str_lower key = Ok lowered ->
    snd (splitext lowered) ∉ SKIP_EXTENSIONS ->
    scan_path bucket key tmp_path (Ok scan_result) evs ->
    infected scan_result = false ->
    tag_path bucket key "clean" "" evs' ->
    body_path event (Ok clean_response)
      (processing bucket key size :: evs ++ evs').

Definition received (event : dict) : Effect :=
  Print ("Event received: " ++ json_dumps E None (PDict event)).

Definition scan_error_report (event : dict) (e : exn) : dict :=
  [("error", PStr (str_exn (repr E) e)); ("event", PDict event)].

Inductive handler_path (event : dict)
  : Result Response -> list Effect -> Prop :=
| completed response evs :
    body_path event (Ok response) evs ->
    handler_path event (Ok response) (received event :: evs)
| reported e evs evs' :
    body_path event (Raise e) evs ->
    alert_path "SCAN_ERROR" (scan_error_report event e) evs' ->
    handler_path event (Raise e)
      (received event :: evs
       ++ Print ("Error scanning file: " ++ str_exn (repr E) e) :: evs').

End Paths.


(** * Proofs *)

(** ** [splitext] on ordinary file names *)

Lemma str_append_assoc (s1 s2 s3 : string) : (s1 ++ s2) ++ s3 = s1 ++ (s2 ++ s3).
Proof.
  induction s1 as [| d s1 IH]; [reflexivity |].
  change (String d ((s1 ++ s2) ++ s3) = String d (s1 ++ (s2 ++ s3))).
  now rewrite IH.
Qed.

Lemma str_length_append (s1 s2 : string) :
  String.length (s1 ++ s2) = (String.length s1 + String.length s2)%nat.
Proof.
  induction s1 as [| d s1 IH]; [reflexivity |].
  change (S (String.length (s1 ++ s2))
          = S (String.length s1 + String.length s2)).
  now rewrite IH.
Qed.

Lemma rfind_from_app c s1 s2 i last :
  Str.rfind_from c (s1 ++ s2) i last
  = Str.rfind_from c s2 (i + Z.of_nat (String.length s1))
      (Str.rfind_from c s1 i last).
Proof.
  revert i last. induction s1 as [| d s1 IH]; intros i last.
  - cbn. f_equal. lia.
  - change (String d s1 ++ s2) with (String d (s1 ++ s2)).
    cbn [Str.rfind_from String.length]. rewrite IH. f_equal. lia.
Qed.

Lemma rfind_from_absent c s i last :
  has_char c s = false -> Str.rfind_from c s i last = last.
Proof.
  revert i last. induction s as [| d s IH]; intros i last H; cbn in *.
  - reflexivity.
  - apply orb_false_iff in H as [Hd Hs]. rewrite Hd. now apply IH.
Qed.

Lemma has_char_app c s1 s2 :
  has_char c (s1 ++ s2) = has_char c s1 || has_char c s2.
Proof.
  induction s1 as [| d s1 IH]; [reflexivity |].
  change (Ascii.eqb d c || has_char c (s1 ++ s2)
          = Ascii.eqb d c || has_char c s1 || has_char c s2).
  now rewrite IH, orb_assoc.
Qed.

Lemma has_char_cons c d s :
  has_char c (String d s) = Ascii.eqb d c || has_char c s.
Proof. reflexivity. Qed.

Lemma get_app_length s1 c s2 :
  String.get (String.length s1) (s1 ++ String c s2) = Some c.
Proof. induction s1 as [| d s1 IH]; cbn; [reflexivity | exact IH]. Qed.

Lemma str_take_app_length s1 s2 : Str.take (String.length s1) (s1 ++ s2) = s1.
Proof.
  unfold Str.take. induction s1 as [| d s1 IH].
  - now destruct s2.
  - change (String d s1 ++ s2) with (String d (s1 ++ s2)).
    cbn [String.length substring]. now rewrite IH.
Qed.

Lemma str_drop_app_length s1 s2 : Str.drop (String.length s1) (s1 ++ s2) = s2.
Proof. induction s1 as [| d s1 IH]; cbn; [reflexivity | exact IH]. Qed.

Lemma rfind_directory dir :
  dir = "" \/ (exists d, dir = d ++ "/") ->
  Str.rfind "/" dir = Z.of_nat (String.length dir) - 1.
Proof.
  intros [-> | [d ->]]; [reflexivity |].
  unfold Str.rfind. rewrite rfind_from_app. cbn.
  rewrite str_length_append. cbn. lia.
Qed.

(** A name that does not start with a dot, followed by a dot and a suffix
    free of dots and slashes, is split at that dot. *)
Lemma splitext_plain_name dir c name suffix :
  dir = "" \/ (exists d, dir = d ++ "/") ->
  c <> "."%char ->
  c <> "/"%char ->
  has_char "/" name = false ->
  has_char "/" suffix = false ->
  has_char "." suffix = false ->
  splitext (dir ++ String c name ++ "." ++ suffix)
  = (dir ++ String c name, "." ++ suffix).
Proof.
  intros Hdir Hdot Hsep Hname Hsuf1 Hsuf2.
  set (stem := dir ++ String c name).
  assert (Hp : dir ++ String c name ++ "." ++ suffix = stem ++ "." ++ suffix).
  { subst stem. now rewrite str_append_assoc. }
  assert (Hsepi : Str.rfind "/" (stem ++ "." ++ suffix)
                  = Z.of_nat (String.length dir) - 1).
  { rewrite <- Hp. unfold Str.rfind. rewrite rfind_from_app.
    fold (Str.rfind "/" dir). rewrite (rfind_directory dir Hdir).
    apply rfind_from_absent.
    apply Ascii.eqb_neq in Hsep.
    now rewrite !has_char_app, !has_char_cons, Hsep, Hname, Hsuf1. }
  assert (Hdoti : Str.rfind "." (stem ++ "." ++ suffix)
                  = Z.of_nat (String.length stem)).
  { unfold Str.rfind. rewrite rfind_from_app.
    change ("." ++ suffix) with (String "." suffix).
    cbn [Str.rfind_from]. rewrite Ascii.eqb_refl.
    rewrite rfind_from_absent by exact Hsuf2. lia. }
  rewrite Hp. unfold splitext. rewrite Hsepi, Hdoti.
  assert (Hlen : String.length stem = (String.length dir + S (String.length name))%nat).
  { subst stem. rewrite str_length_append. reflexivity. }
  replace (Z.of_nat (String.length stem) >? Z.of_nat (String.length dir) - 1)%Z
    with true by (symmetry; apply Z.gtb_lt; lia).
  replace (Z.to_nat (Z.of_nat (String.length stem)
                     - (Z.of_nat (String.length dir) - 1 + 1)))
    with (S (String.length name)) by lia.
  cbn [has_non_dot andb].
  unfold Str.at_index.
  replace (Z.of_nat (String.length dir) - 1 + 1 <? 0)%Z with false
    by (symmetry; apply Z.ltb_ge; lia).
  replace (Z.to_nat (Z.of_nat (String.length dir) - 1 + 1))
    with (String.length dir) by lia.
  subst stem. rewrite str_append_assoc.
  change (dir ++ String c name ++ "." ++ suffix)
    with (dir ++ String c (name ++ "." ++ suffix)).
  rewrite get_app_length.
  apply Ascii.eqb_neq in Hdot. rewrite Hdot.
  rewrite Nat2Z.id.
  change (dir ++ String c (name ++ "." ++ suffix))
    with (dir ++ (String c name ++ ("." ++ suffix))).
  rewrite <- str_append_assoc.
  now rewrite str_take_app_length, str_drop_app_length.
Qed.

(** ** Rules for composing runs *)

Section RunRules.

Context {A B : Type}.

Lemma runs_outcome (m : M A) w r evs w' :
  runs m w r evs w' -> outcome m w = r.
Proof. intros [H _]. unfold outcome. now rewrite H. Qed.

Lemma runs_after (m : M A) w r evs w' :
  runs m w r evs w' -> after m w = w'.
Proof. intros [H _]. unfold after. now rewrite H. Qed.

Lemma runs_emitted (m : M A) w r evs w' :
  runs m w r evs w' -> emitted m w = evs.
Proof.
  intros [H Ht]. unfold emitted, after. rewrite H. cbn.
  rewrite Ht. apply drop_app_length.
Qed.

Lemma runs_ret (a : A) w : runs (ret a) w (Ok a) [] w.
Proof. split; [reflexivity | now rewrite app_nil_r]. Qed.

Lemma runs_raise (e : exn) w : runs (@raise A e) w (Raise e) [] w.
Proof. split; [reflexivity | now rewrite app_nil_r]. Qed.

Lemma runs_lift (r : Result A) w : runs (lift r) w r [] w.
Proof. split; [reflexivity | now rewrite app_nil_r]. Qed.

Lemma runs_bind_ok (m : M A) (k : A -> M B) w a evs1 w1 r evs2 w2 :
  runs m w (Ok a) evs1 w1 ->
  runs (k a) w1 r evs2 w2 ->
  runs (bind m k) w r (evs1 ++ evs2) w2.
Proof.
  intros [H1 T1] [H2 T2]. split.
  - unfold bind. now rewrite H1.
  - now rewrite T2, T1, app_assoc.
Qed.

Lemma runs_bind_raise (m : M A) (k : A -> M B) w e evs w1 :
  runs m w (Raise e) evs w1 ->
  runs (bind m k) w (Raise e) evs w1.
Proof.
  intros [H1 T1]. split; [| exact T1]. unfold bind. now rewrite H1.
Qed.

Lemma runs_try_finally (body : M A) (cleanup : M unit) w r evs1 w1 evs2 w2 :
  runs body w r evs1 w1 ->
  runs cleanup w1 (Ok tt) evs2 w2 ->
  runs (try_finally body cleanup) w r (evs1 ++ evs2) w2.
Proof.
  intros [H1 T1] [H2 T2]. split.
  - unfold try_finally. now rewrite H1, H2.
  - now rewrite T2, T1, app_assoc.
Qed.

Lemma runs_caught_ClientError (body : M A) handle w msg evs1 w1 r evs2 w2 :
  runs body w (Raise (ClientError msg)) evs1 w1 ->
  runs (handle msg) w1 r evs2 w2 ->
  runs (try_except_ClientError body handle) w r (evs1 ++ evs2) w2.
Proof.
  intros [H1 T1] [H2 T2]. split.
  - unfold try_except_ClientError. now rewrite H1.
  - now rewrite T2, T1, app_assoc.
Qed.

Lemma runs_uncaught_ClientError (body : M A) handle w r evs w1 :
  runs body w r evs w1 ->
  (forall msg, r <> Raise (ClientError msg)) ->
  runs (try_except_ClientError body handle) w r evs w1.
Proof.
  intros [H1 T1] Hr. split; [| exact T1].
  unfold try_except_ClientError. rewrite H1.
  destruct r as [a | []]; try reflexivity. now destruct (Hr msg).
Qed.

Lemma runs_caught_Exception (body : M A) handle w e evs1 w1 r evs2 w2 :
  runs body w (Raise e) evs1 w1 ->
  runs (handle e) w1 r evs2 w2 ->
  runs (try_except_Exception body handle) w r (evs1 ++ evs2) w2.
Proof.
  intros [H1 T1] [H2 T2]. split.
  - unfold try_except_Exception. now rewrite H1.
  - now rewrite T2, T1, app_assoc.
Qed.

Lemma runs_no_Exception (body : M A) handle w a evs w1 :
  runs body w (Ok a) evs w1 ->
  runs (try_except_Exception body handle) w (Ok a) evs w1.
Proof.
  intros [H1 T1]. split; [| exact T1].
  unfold try_except_Exception. now rewrite H1.
Qed.

End RunRules.

Lemma runs_print line w :
  runs (print line) w (Ok tt) [Print line] (record (Print line) w).
Proof. split; reflexivity. Qed.

Lemma runs_utcnow E w :
  exists w', runs (utcnow E) w (Ok (clock E w)) [] w' /\ fs w' = fs w.
Proof.
  eexists. split; [split; [reflexivity |] | reflexivity].
  cbn. now rewrite app_nil_r.
Qed.

Lemma runs_client E call w :
  exists w',
    fs w' = fs w /\
    match boto E w call with
    | None => runs (client E call) w (Ok tt) [Api call None] w'
    | Some msg =>
        runs (client E call) w (Raise (ClientError msg))
             [Api call (Some msg)] w'
    end.
Proof.
  unfold runs, client.
  destruct (boto E w call); eexists; (split; [| split; reflexivity]);
    reflexivity.
Qed.

(** ** The code has no other runs *)

Section Soundness.

Variable E : Env.

Lemma alert_unfold_publish ty data now error :
  Str.nonempty (ALERT_TOPIC_ARN (cfg E)) = true ->
  alert E ty data now error
  = Api (publish (ALERT_TOPIC_ARN (cfg E)) ("[SECURITY ALERT] " ++ ty)
           (json_dumps E (Some 2%nat)
              (PDict (dict_update [("type", PStr ty);
                                   ("timestamp", PStr (isoformat now))]
                                  data))))
        error.
Proof. intros H. unfold alert. now rewrite H. Qed.

Lemma alert_unfold_log ty data now error :
  Str.nonempty (ALERT_TOPIC_ARN (cfg E)) = false ->
  alert E ty data now error
  = Print ("Alert (no SNS): " ++ ty ++ " - " ++ repr E (PDict data)).
Proof. intros H. unfold alert. now rewrite H. Qed.

Lemma send_alert_runs ty data w :
  exists evs w',
    runs (send_alert E ty data) w (Ok tt) evs w'
    /\ fs w' = fs w
    /\ alert_path E ty data evs.
Proof.
  unfold send_alert.
  destruct (Str.nonempty (ALERT_TOPIC_ARN (cfg E))) eqn:Ht; cbn [negb].
  - destruct (runs_utcnow E w) as (w1 & Hu & F1).
    set (call := publish (ALERT_TOPIC_ARN (cfg E)) ("[SECURITY ALERT] " ++ ty)
                   (json_dumps E (Some 2%nat)
                   (PDict (dict_update [("type", PStr ty);
                        ("timestamp", PStr (isoformat (clock E w)))] data)))).
    destruct (runs_client E call w1) as (w2 & F2 & Hc).
    destruct (boto E w1 call) as [msg |].
    + exists [Api call (Some msg); Print ("Failed to send alert: " ++ msg)].
      eexists. split; [| split].
      * eapply (runs_caught_ClientError _ _ _ _ [Api call (Some msg)]).
        -- eapply (runs_bind_ok _ _ _ _ []); [exact Hu |].
           apply runs_bind_raise. exact Hc.
        -- apply runs_print.
      * cbn. congruence.
      * subst call. rewrite <- (alert_unfold_publish _ _ _ _ Ht).
        now constructor.
    + exists [Api call None; Print ("Alert sent: " ++ ty)].
      eexists. split; [| split].
      * apply runs_uncaught_ClientError; [| discriminate].
        eapply (runs_bind_ok _ _ _ _ []); [exact Hu |].
        eapply (runs_bind_ok _ _ _ _ [Api call None]); [exact Hc |].
        apply runs_print.
      * cbn. congruence.
      * subst call. rewrite <- (alert_unfold_publish _ _ _ _ Ht).
        now constructor.
  - eexists. eexists. split; [apply runs_print | split; [reflexivity |]].
    rewrite <- (alert_unfold_log ty data (clock E w) None Ht).
    now constructor.
Qed.

Lemma tag_object_runs bucket key status details w :
  exists evs w',
    runs (tag_object E bucket key status details) w (Ok tt) evs w'
    /\ fs w' = fs w
    /\ tag_path bucket key status details evs.
Proof.
  unfold tag_object.
  destruct (runs_utcnow E w) as (w1 & Hu & F1).
  set (call := put_object_tagging bucket key
                 (tag_set status (clock E w) details)).
  assert (Hbody : forall r evs w2,
             runs (client E call) w1 r evs w2 ->
             runs (now <- utcnow E ;;
                   let tags :=
                     [ {| tag_Key := "virus-scan"; tag_Value := status |};
                       {| tag_Key := "scan-date";
                          tag_Value := isoformat now |} ] in
                   let tags :=
                     if Str.nonempty details
                     then (tags ++ [ {| tag_Key := "scan-details";
                                        tag_Value := Str.take 256 details |} ])%list
                     else tags in
                   client E (put_object_tagging bucket key tags))
                  w r evs w2).
  { intros r evs w2 [Hc Tc]. destruct Hu as [Hu Tu].
    subst call. unfold tag_set in Hc. split.
    - unfold bind. rewrite Hu.
      destruct (Str.nonempty details); exact Hc.
    - rewrite Tc, Tu. now rewrite app_nil_r. }
  destruct (runs_client E call w1) as (w2 & F2 & Hc).
  destruct (boto E w1 call) as [msg |].
  - exists [Api call (Some msg); Print ("Failed to tag object: " ++ msg)].
    eexists. split; [| split].
    + eapply (runs_caught_ClientError _ _ _ _ [Api call (Some msg)]).
      * apply Hbody, Hc.
      * apply runs_print.
    + cbn. congruence.
    + constructor.
  - exists [Api call None]. exists w2. split; [| split].
    + apply runs_uncaught_ClientError; [| discriminate]. apply Hbody, Hc.
    + congruence.
    + constructor.
Qed.

Lemma handle_infected_file_runs bucket key scan_result w :
  exists r evs w',
    runs (handle_infected_file E bucket key scan_result) w r evs w'
    /\ fs w' = fs w
    /\ quarantine_path E bucket key scan_result r evs.
Proof.
  unfold handle_infected_file.
  destruct (runs_utcnow E w) as (w1 & Hu1 & F1).
  set (today := clock E w).
  pose proof (runs_print
    ("Quarantining infected file to s3://" ++ QUARANTINE_BUCKET (cfg E)
     ++ "/" ++ "infected/" ++ strftime_Ymd today ++ "/" ++ str E bucket
     ++ "/" ++ str E key) w1) as Hp.
  set (w2 := record _ w1) in Hp.
  destruct (runs_utcnow E w2) as (w3 & Hu2 & F3).
  set (now := clock E w2).
  set (copy := quarantine_copy E today now bucket key scan_result).
  destruct (runs_client E copy w3) as (w4 & F4 & Hcopy).
  destruct (boto E w3 copy) as [msg |].
  - (* the copy is refused *)
    pose proof (runs_print ("Error quarantining file: " ++ msg) w4) as Hp'.
    set (w5 := record _ w4) in Hp'.
    destruct (send_alert_runs "QUARANTINE_FAILED"
                (quarantine_failure_report bucket key scan_result msg) w5)
      as (evs & w6 & Ha & F6 & Pa).
    exists (Raise (ClientError msg)). eexists. exists w6. split; [| split].
    + eapply (runs_bind_ok _ _ _ _ []); [exact Hu1 |].
      eapply runs_bind_ok; [exact Hp |].
      eapply runs_caught_ClientError.
      * eapply (runs_bind_ok _ _ _ _ []); [exact Hu2 |].
        apply runs_bind_raise. exact Hcopy.
      * eapply runs_bind_ok; [exact Hp' |].
        eapply runs_bind_ok; [exact Ha |].
        apply runs_raise.
    + subst w5 w2. cbn in *. congruence.
    + rewrite app_nil_r.
      apply (copy_failed E _ _ _ today now msg evs); [| | exact Pa].
      * now exists w.
      * now exists w2.
  - destruct (runs_client E (delete_object bucket key) w4)
      as (w5 & F5 & Hdel).
    destruct (boto E w4 (delete_object bucket key)) as [msg |].
    + (* the delete is refused *)
      pose proof (runs_print ("Error quarantining file: " ++ msg) w5) as Hp'.
      set (w6 := record _ w5) in Hp'.
      destruct (send_alert_runs "QUARANTINE_FAILED"
                  (quarantine_failure_report bucket key scan_result msg) w6)
        as (evs & w7 & Ha & F7 & Pa).
      exists (Raise (ClientError msg)). eexists. exists w7. split; [| split].
      * eapply (runs_bind_ok _ _ _ _ []); [exact Hu1 |].
        eapply runs_bind_ok; [exact Hp |].
        eapply runs_caught_ClientError.
        -- eapply (runs_bind_ok _ _ _ _ []); [exact Hu2 |].
           eapply runs_bind_ok; [exact Hcopy |].
           apply runs_bind_raise. exact Hdel.
        -- eapply runs_bind_ok; [exact Hp' |].
           eapply runs_bind_ok; [exact Ha |].
           apply runs_raise.
      * subst w6 w2. cbn in *. congruence.
      * rewrite app_nil_r.
        apply (delete_failed E _ _ _ today now msg evs); [| | exact Pa].
        -- now exists w.
        -- now exists w2.
    + pose proof (runs_print
        ("Deleted original file from s3://" ++ str E bucket ++ "/"
         ++ str E key) w5) as Hp'.
      set (w6 := record _ w5) in Hp'.
      destruct (send_alert_runs "MALWARE_DETECTED"
                  (malware_report E today bucket key scan_result) w6)
        as (evs & w7 & Ha & F7 & Pa).
      exists (Ok tt). eexists. exists w7. split; [| split].
      * eapply (runs_bind_ok _ _ _ _ []); [exact Hu1 |].
        eapply runs_bind_ok; [exact Hp |].
        apply runs_uncaught_ClientError; [| discriminate].
        eapply (runs_bind_ok _ _ _ _ []); [exact Hu2 |].
        eapply runs_bind_ok; [exact Hcopy |].
        eapply runs_bind_ok; [exact Hdel |].
        eapply runs_bind_ok; [exact Hp' |].
        exact Ha.
      * subst w6 w2. cbn in *. congruence.
      * apply (quarantined E _ _ _ today now evs); [| | exact Pa].
        -- now exists w.
        -- now exists w2.
Qed.

Lemma runs_download bucket key path w :
  exists w',
    fs w' = fetched_fs E w (download_file bucket key path) /\
    match boto E w (download_file bucket key path) with
    | None =>
        runs (s3_download_file E bucket key path) w (Ok tt)
             [Api (download_file bucket key path) None] w'
    | Some msg =>
        runs (s3_download_file E bucket key path) w
             (Raise (ClientError msg))
             [Api (download_file bucket key path) (Some msg)] w'
    end.
Proof.
  unfold runs, s3_download_file.
  destruct (boto E w (download_file bucket key path));
    eexists; (split; [| split; reflexivity]); reflexivity.
Qed.

Lemma runs_subprocess args timeout w :
  exists w',
    fs w' = snd (clamscan E w args timeout) /\
    match fst (clamscan E w args timeout) with
    | Exited p =>
        runs (subprocess_run E args timeout) w (Ok p)
             [Run args timeout (Exited p)] w'
    | RunRaised e =>
        runs (subprocess_run E args timeout) w (Raise e)
             [Run args timeout (RunRaised e)] w'
    end.
Proof.
  unfold runs, subprocess_run.
  destruct (clamscan E w args timeout) as [[p | e] paths]; cbn;
    eexists; (split; [| split; reflexivity]); reflexivity.
Qed.

Lemma runs_exists path w :
  runs (os_path_exists path) w (Ok (bool_decide (path ∈ fs w))) [] w.
Proof. split; [reflexivity | now rewrite app_nil_r]. Qed.

(** The [finally] block never raises, adds nothing to the trace, and
    leaves no file at the temporary path; where there was none, it does
    nothing at all. *)
Lemma scan_cleanup_runs tmp_path w :
  exists w',
    runs (scan_cleanup tmp_path) w (Ok tt) [] w'
    /\ (tmp_path ∉ fs w')
    /\ ((tmp_path ∉ fs w) -> w' = w).
Proof.
  unfold scan_cleanup, runs, bind, os_path_exists.
  destruct (decide (tmp_path ∈ fs w)) as [Hin | Hin].
  - rewrite (bool_decide_eq_true_2 _ Hin). unfold os_unlink.
    rewrite (bool_decide_eq_true_2 _ Hin).
    eexists. split; [split; [reflexivity |] | split].
    + cbn. now rewrite app_nil_r.
    + cbn. rewrite elem_of_difference, elem_of_singleton. tauto.
    + intros Hout. now destruct Hout.
  - rewrite (bool_decide_eq_false_2 _ Hin).
    exists w. split; [split; [reflexivity |] | split].
    + now rewrite app_nil_r.
    + exact Hin.
    + reflexivity.
Qed.

Lemma scan_body_runs bucket key tmp_path w :
  exists r evs w',
    runs (scan_body E bucket key tmp_path) w r evs w'
    /\ scan_path E bucket key tmp_path r evs.
Proof.
  unfold scan_body.
  pose proof (runs_print
    ("Downloading s3://" ++ str E bucket ++ "/" ++ str E key ++ " to "
     ++ tmp_path) w) as Hp.
  set (w1 := record _ w) in Hp.
  destruct (runs_download bucket key tmp_path w1) as (w2 & F2 & Hd).
  destruct (boto E w1 (download_file bucket key tmp_path)) as [msg |].
  { do 3 eexists. split.
    - eapply runs_bind_ok; [exact Hp |]. apply runs_bind_raise. exact Hd.
    - apply fetch_failed. }
  pose proof (runs_exists (CLAMSCAN_PATH (cfg E)) w2) as Hx.
  destruct (bool_decide (CLAMSCAN_PATH (cfg E) ∈ fs w2)) eqn:Hin.
  2:{ apply bool_decide_eq_false in Hin. rewrite F2 in Hin.
      do 3 eexists. split.
      - eapply runs_bind_ok; [exact Hp |].
        eapply runs_bind_ok; [exact Hd |].
        eapply (runs_bind_ok _ _ _ _ []); [exact Hx |]. cbn [negb].
        eapply runs_bind_ok; [apply runs_print |]. apply runs_ret.
      - apply (engine_absent E _ _ _ w1 Hin). }
  apply bool_decide_eq_true in Hin. rewrite F2 in Hin.
  pose proof (runs_print ("Scanning " ++ tmp_path ++ " with ClamAV...") w2)
    as Hp'.
  set (w3 := record _ w2) in Hp'.
  destruct (runs_subprocess (clamscan_args E tmp_path) 300 w3)
    as (w4 & F4 & Hr).
  assert (Hpre : forall r evs w',
             runs (result <- subprocess_run E (clamscan_args E tmp_path) 300 ;;
                   if (returncode result =? 0)%Z then
                     print "File is clean" ;;;
                     ret {| infected := false;
                            details := "No threats detected" |}
                   else if (returncode result =? 1)%Z then
                     let details := Str.or (Str.strip (stdout result))
                                           (Str.strip (stderr result)) in
                     print ("VIRUS DETECTED: " ++ details) ;;;
                     ret {| infected := true; details := details |}
                   else
                     let error := Str.or (Str.strip (stderr result))
                                         (Str.strip (stdout result)) in
                     print ("ClamAV error: " ++ error) ;;;
                     ret {| infected := false;
                            details := "Scan error: " ++ error |})
                  w3 r evs w' ->
             runs (scan_body E bucket key tmp_path) w r
                  ([downloading E bucket key tmp_path;
                    Api (download_file bucket key tmp_path) None;
                    scanning tmp_path] ++ evs) w').
  { intros r evs w' Hrest. unfold scan_body.
    eapply (runs_bind_ok _ _ _ _ [_]); [exact Hp |].
    eapply (runs_bind_ok _ _ _ _ [_]); [exact Hd |].
    eapply (runs_bind_ok _ _ _ _ []); [exact Hx |]. cbn [negb].
    eapply (runs_bind_ok _ _ _ _ [_]); [exact Hp' |]. exact Hrest. }
  destruct (fst (clamscan E w3 (clamscan_args E tmp_path) 300)) as [p | e].
  - destruct (returncode p =? 0)%Z eqn:H0;
      [| destruct (returncode p =? 1)%Z eqn:H1].
    + do 3 eexists. split.
      * apply Hpre. eapply runs_bind_ok; [exact Hr |]. rewrite H0.
        eapply runs_bind_ok; [apply runs_print |]. apply runs_ret.
      * apply (engine_found_nothing E _ _ _ w1 p Hin). lia.
    + do 3 eexists. split.
      * apply Hpre. eapply runs_bind_ok; [exact Hr |]. rewrite H0, H1.
        eapply runs_bind_ok; [apply runs_print |]. apply runs_ret.
      * apply (engine_found_virus E _ _ _ w1 p Hin). lia.
    + do 3 eexists. split.
      * apply Hpre. eapply runs_bind_ok; [exact Hr |]. rewrite H0, H1.
        eapply runs_bind_ok; [apply runs_print |]. apply runs_ret.
      * apply (engine_failed E _ _ _ w1 p Hin); lia.
  - do 3 eexists. split.
    + apply Hpre. apply runs_bind_raise. exact Hr.
    + apply (engine_raised E _ _ _ w1 e Hin).
Qed.

Lemma scan_file_runs bucket key w :
  exists r evs w',
    runs (scan_file E bucket key) w r evs w'
    /\ scan_path E bucket key (mkstemp E w) r evs
    /\ (mkstemp E w ∉ fs w').
Proof.
  set (tmp_path := mkstemp E w).
  set (w0 := with_fs ({[ tmp_path ]} ∪ fs w) w).
  destruct (scan_body_runs bucket key tmp_path w0) as (r & evs & w1 & Hb & P).
  destruct (scan_cleanup_runs tmp_path w1) as (w2 & Hc & Hgone & _).
  exists r, evs, w2. split; [| split; assumption].
  unfold scan_file.
  eapply (runs_bind_ok _ _ _ _ [] w0).
  - split; [reflexivity | now rewrite app_nil_r].
  - rewrite <- (app_nil_r evs). eapply runs_try_finally; eassumption.
Qed.

Lemma handler_body_runs event w :
  exists r evs w',
    runs (handler_body E event) w r evs w' /\ body_path E event r evs.
Proof.
  unfold handler_body.
  destruct (parse_event E event) as [[[bucket key] size] | e] eqn:Hparse.
  2:{ do 3 eexists. split.
      - apply runs_bind_raise. apply runs_lift.
      - now apply unparsed. }
  (* step over the unpacking of the parsed triple *)
  match goal with
  | |- exists r evs w', runs (bind _ ?k) _ r evs w' /\ _ =>
      enough (exists r evs w',
                 runs (k (bucket, key, size)) w r evs w'
                 /\ body_path E event r evs)
        as (r & evs & w' & H & P);
      [ exists r, evs, w'; split; [| exact P];
        eapply (runs_bind_ok _ _ _ _ []); [apply runs_lift | exact H]
      | cbn beta iota ]
  end.
  pose proof (runs_print
    ("Processing: s3://" ++ str E bucket ++ "/" ++ str E key ++ " ("
     ++ str E size ++ " bytes)") w) as Hp.
  set (w1 := record _ w) in Hp.
  destruct (gt_int size (MAX_FILE_SIZE (cfg E))) as [[|] | e] eqn:Hgt.
  3:{ do 3 eexists. split.
      - eapply runs_bind_ok; [exact Hp |].
        apply runs_bind_raise. apply runs_lift.
      - rewrite app_nil_r.
        now apply (size_not_a_number E event bucket key size e). }
  { (* too large *)
    pose proof (runs_print
      ("File too large to scan: " ++ str E size ++ " bytes (max: "
       ++ repr E (PInt (MAX_FILE_SIZE (cfg E))) ++ ")") w1) as Hp'.
    set (w2 := record _ w1) in Hp'.
    destruct (tag_object_runs bucket key "skipped" "File too large" w2)
      as (evs & w3 & Ht & _ & Pt).
    do 3 eexists. split.
    - eapply runs_bind_ok; [exact Hp |].
      eapply (runs_bind_ok _ _ _ _ []); [apply runs_lift |].
      eapply runs_bind_ok; [exact Hp' |].
      eapply runs_bind_ok; [exact Ht |]. apply runs_ret.
    - cbn [app]. rewrite app_nil_r.
      now apply (too_large E event bucket key size evs). }
  destruct (str_lower key) as [lowered | e] eqn:Hlow.
  2:{ do 3 eexists. split.
      - eapply runs_bind_ok; [exact Hp |].
        eapply (runs_bind_ok _ _ _ _ []); [apply runs_lift |].
        apply runs_bind_raise. apply runs_lift.
      - now apply (key_not_a_string E event bucket key size e). }
  destruct (decide (snd (splitext lowered) ∈ SKIP_EXTENSIONS)) as [Hin | Hin].
  { (* media *)
    pose proof (runs_print
      ("Media file - tagging as scanned: " ++ str E key) w1) as Hp'.
    set (w2 := record _ w1) in Hp'.
    destruct (tag_object_runs bucket key "clean"
                "Media file - basic validation" w2)
      as (evs & w3 & Ht & _ & Pt).
    do 3 eexists. split.
    - eapply runs_bind_ok; [exact Hp |].
      eapply (runs_bind_ok _ _ _ _ []); [apply runs_lift |].
      eapply (runs_bind_ok _ _ _ _ []); [apply runs_lift |]. cbn zeta.
      rewrite (bool_decide_eq_true_2 _ Hin).
      eapply runs_bind_ok; [exact Hp' |].
      eapply runs_bind_ok; [exact Ht |]. apply runs_ret.
    - cbn [app]. rewrite app_nil_r.
      now apply (media E event bucket key size lowered evs). }
  destruct (scan_file_runs bucket key w1)
    as ([scan_result | e] & evs & w2 & Hs & Ps & _).
  2:{ do 3 eexists. split.
      - eapply runs_bind_ok; [exact Hp |].
        eapply (runs_bind_ok _ _ _ _ []); [apply runs_lift |].
        eapply (runs_bind_ok _ _ _ _ []); [apply runs_lift |]. cbn zeta.
        rewrite (bool_decide_eq_false_2 _ Hin).
        apply runs_bind_raise. exact Hs.
      - now apply (scan_raised E event bucket key size lowered
                     (mkstemp E w1) e evs). }
  destruct (infected scan_result) eqn:Hinf.
  - destruct (handle_infected_file_runs bucket key scan_result w2)
      as (r & evs' & w3 & Hq & _ & Pq).
    exists (match r with
            | Ok _ => Ok (quarantined_response)
            | Raise e => Raise e
            end), (processing E bucket key size :: evs ++ evs'), w3.
    split.
    + eapply (runs_bind_ok _ _ _ _ [_]); [exact Hp |].
      eapply (runs_bind_ok _ _ _ _ []); [apply runs_lift |].
      eapply (runs_bind_ok _ _ _ _ []); [apply runs_lift |]. cbn zeta.
      rewrite (bool_decide_eq_false_2 _ Hin).
      eapply runs_bind_ok; [exact Hs |]. rewrite Hinf.
      destruct r as [[] | e].
      * rewrite <- (app_nil_r evs').
        eapply runs_bind_ok; [exact Hq |]. apply runs_ret.
      * apply runs_bind_raise. exact Hq.
    + now apply (scanned_infected E event bucket key size lowered
                   (mkstemp E w1) scan_result evs r evs').
  - destruct (tag_object_runs bucket key "clean" "" w2)
      as (evs' & w3 & Ht & _ & Pt).
    exists (Ok clean_response),
           (processing E bucket key size :: evs ++ evs'), w3.
    split.
    + eapply (runs_bind_ok _ _ _ _ [_]); [exact Hp |].
      eapply (runs_bind_ok _ _ _ _ []); [apply runs_lift |].
      eapply (runs_bind_ok _ _ _ _ []); [apply runs_lift |]. cbn zeta.
      rewrite (bool_decide_eq_false_2 _ Hin).
      eapply runs_bind_ok; [exact Hs |]. rewrite Hinf.
      rewrite <- (app_nil_r evs').
      eapply runs_bind_ok; [exact Ht |]. apply runs_ret.
    + now apply (scanned_clean E event bucket key size lowered
                   (mkstemp E w1) scan_result evs evs').
Qed.

Theorem handler_runs event context w :
  exists r evs w',
    runs (handler E event context) w r evs w' /\ handler_path E event r evs.
Proof.
  unfold handler.
  pose proof (runs_print
    ("Event received: " ++ json_dumps E None (PDict event)) w) as Hp.
  set (w1 := record _ w) in Hp.
  destruct (handler_body_runs event w1) as ([response | e] & evs & w2 & Hb & Pb).
  - do 3 eexists. split.
    + eapply (runs_bind_ok _ _ _ _ [_]); [exact Hp |].
      apply runs_no_Exception. exact Hb.
    + now apply completed.
  - pose proof (runs_print
      ("Error scanning file: " ++ str_exn (repr E) e) w2) as Hp'.
    set (w3 := record _ w2) in Hp'.
    destruct (send_alert_runs "SCAN_ERROR" (scan_error_report E event e) w3)
      as (evs' & w4 & Ha & _ & Pa).
    do 3 eexists. split.
    + eapply (runs_bind_ok _ _ _ _ [_]); [exact Hp |].
      eapply runs_caught_Exception; [exact Hb |].
      eapply (runs_bind_ok _ _ _ _ [_]); [exact Hp' |].
      eapply runs_bind_ok; [exact Ha |]. apply runs_raise.
    + rewrite app_nil_r. now apply reported.
Qed.

End Soundness.

(** ** Kinds of effects *)

Lemma only_nil ks : only ks [].
Proof. constructor. Qed.

Lemma only_cons ks e evs :
  In (kind_of e) ks -> only ks evs -> only ks (e :: evs).
Proof. intros. now constructor. Qed.

Lemma only_app ks evs1 evs2 :
  only ks evs1 -> only ks evs2 -> only ks (evs1 ++ evs2).
Proof. intros. apply Forall_app. now split. Qed.

Lemma only_more ks ks' evs :
  incl ks ks' -> only ks evs -> only ks' evs.
Proof.
  intros Hincl H. unfold only in *. rewrite Forall_forall in *.
  intros e He. apply Hincl, H, He.
Qed.

Lemma only_In ks evs e : only ks evs -> In e evs -> In (kind_of e) ks.
Proof.
  unfold only. rewrite Forall_forall. intros H He. apply H.
  now apply list_elem_of_In.
Qed.

(** A filter that selects one kind finds nothing where that kind does not
    occur. *)
Lemma filter_only (f : Effect -> bool) (k : kind) ks evs :
  (forall e, f e = true -> kind_of e = k) ->
  only ks evs ->
  ~ In k ks ->
  List.filter f evs = [].
Proof.
  intros Hf H Hk. induction H as [| e evs He _ IH]; [reflexivity |].
  cbn. destruct (f e) eqn:Hfe; [| exact IH].
  apply Hf in Hfe. rewrite Hfe in He. now destruct Hk.
Qed.



Lemma is_delete_kind e : is_delete e = true -> kind_of e = KDelete.
Proof. now destruct e as [| [] |]. Qed.

Ltac unfold_lines :=
  cbv delta [received processing too_large_line quarantining downloading
             scanning quarantine_copy].

Ltac kinds := unfold_lines; cbn; tauto.

Ltac refute_kind K :=
  solve [ cbn in K;
          repeat (destruct K as [K | K]; [discriminate K |]); destruct K ].

Ltac no_kind := let K := fresh "K" in intros K; refute_kind K.

Section PathFacts.

Variable E : Env.

Lemma kind_of_alert ty data now error :
  In (kind_of (alert E ty data now error)) [KPrint; KPublish].
Proof.
  unfold alert. destruct (Str.nonempty (ALERT_TOPIC_ARN (cfg E))); kinds.
Qed.

Lemma alert_path_only ty data evs :
  alert_path E ty data evs -> only [KPrint; KPublish] evs.
Proof.
  intros []; repeat apply only_cons; try apply only_nil;
    try apply kind_of_alert; kinds.
Qed.

Lemma alert_path_alerted ty data evs :
  alert_path E ty data evs -> alerted E ty data evs.
Proof. intros []; do 2 eexists; left; reflexivity. Qed.

Lemma tag_path_only bucket key status details evs :
  tag_path bucket key status details evs -> only [KPrint; KTagging] evs.
Proof. intros []; repeat apply only_cons; try apply only_nil; kinds. Qed.

Lemma tag_path_tagged bucket key status details evs :
  tag_path bucket key status details evs ->
  tagged bucket key status details evs.
Proof. intros []; do 2 eexists; left; reflexivity. Qed.

Lemma scan_path_only bucket key tmp_path r evs :
  scan_path E bucket key tmp_path r evs ->
  only [KPrint; KDownload; KRun] evs.
Proof. intros []; repeat apply only_cons; try apply only_nil; kinds. Qed.

Lemma quarantine_path_only bucket key scan_result r evs :
  quarantine_path E bucket key scan_result r evs ->
  only [KPrint; KCopy; KDelete; KPublish] evs.
Proof.
  intros []; repeat apply only_cons;
    try (eapply only_more; [| eapply alert_path_only; eassumption];
         intros k; kinds);
    kinds.
Qed.

End PathFacts.

(** ** Properties of the handler *)

Ltac invert_path H := inversion H; subst; clear H.

Ltac run_handler E event ctx w r evs P :=
  let Hr := fresh "Hr" in
  let w' := fresh "w'" in
  destruct (handler_runs E event ctx w) as (r & evs & w' & Hr & P);
  rewrite ?(runs_emitted _ _ _ _ _ Hr), ?(runs_outcome _ _ _ _ _ Hr) in *;
  clear Hr w'.

(** Inverts the two outer layers of a run of the handler and keeps the
    paths that agree with the known facts about the event. *)
Ltac outer_paths :=
  repeat match goal with
    | H : handler_path _ _ _ _ |- _ => invert_path H
    | H : body_path _ _ _ _ |- _ => invert_path H
    end;
  repeat match goal with
    | H1 : parse_event ?E ?ev = _, H2 : parse_event ?E ?ev = _ |- _ =>
        rewrite H1 in H2; inversion H2; subst; clear H2
    | H1 : gt_int ?s ?m = _, H2 : gt_int ?s ?m = _ |- _ =>
        rewrite H1 in H2; inversion H2; subst; clear H2
    | H1 : str_lower ?k = _, H2 : str_lower ?k = _ |- _ =>
        rewrite H1 in H2; inversion H2; subst; clear H2
    end;
  try contradiction.

Lemma gt_int_true size n limit :
  as_int size = Some n -> n > limit -> gt_int size limit = Ok true.
Proof.
  intros Hs Hn. unfold gt_int. rewrite Hs. f_equal. apply Z.gtb_lt. lia.
Qed.

Lemma gt_int_false size n limit :
  as_int size = Some n -> n <= limit -> gt_int size limit = Ok false.
Proof.
  intros Hs Hn. unfold gt_int. rewrite Hs. f_equal.
  destruct (Z.gtb_spec n limit); [lia | reflexivity].
Qed.




Ltac solve_only :=
  repeat first
    [ apply only_nil
    | apply only_cons; [kinds |]
    | apply only_app
    | (eapply only_more;
       [| first [ eapply scan_path_only; eassumption
                | eapply tag_path_only; eassumption
                | eapply alert_path_only; eassumption
                | eapply quarantine_path_only; eassumption ] ];
       intros ?k; kinds) ].

(** An effect of a kind that a path cannot produce is not in its trace. *)
Ltac absurd_in H :=
  lazymatch type of H with
  | In _ ?l =>
      let K := fresh "K" in
      first
        [ match goal with
          | P : scan_path _ _ _ _ _ l |- _ =>
              pose proof (only_In _ _ _ (scan_path_only _ _ _ _ _ _ P) H) as K
          | P : tag_path _ _ _ _ l |- _ =>
              pose proof (only_In _ _ _ (tag_path_only _ _ _ _ _ P) H) as K
          | P : alert_path _ _ _ l |- _ =>
              pose proof (only_In _ _ _ (alert_path_only _ _ _ _ P) H) as K
          | P : quarantine_path _ _ _ _ _ l |- _ =>
              pose proof
                (only_In _ _ _ (quarantine_path_only _ _ _ _ _ _ P) H) as K
          end;
          refute_kind K ]
  end.

(** Closes a goal whose context holds an impossible outcome. *)
Ltac absurd_outcome :=
  match goal with
  | H : Raise _ = Ok _ |- _ => discriminate H
  | H : Ok _ = Raise _ |- _ => discriminate H
  | H : infected _ = _ |- _ => discriminate H
  end.

Ltac split_in H :=
  repeat match type of H with
    | In _ (_ ++ _) => apply in_app_or in H; destruct H as [H | H]
    | In _ (_ :: _) => cbn [In] in H; destruct H as [H | H]
    | In _ [] => destruct H
    | _ \/ _ => destruct H as [H | H]
    | False => destruct H
    end.

(** Splits a membership in a trace into its cases and drops the impossible
    ones. *)
Ltac sift H :=
  split_in H; try discriminate H; try absurd_outcome; try absurd_in H.

(** Membership in a concatenation, from membership in one of its parts. *)
Ltac find_in :=
  repeat (rewrite in_app_iff || cbn [In]); tauto.










(** C7.  Whatever the fetch and the engine do, no file is left at the
    temporary path when [scan_file] returns or raises: the run follows one
    of the paths of [scan_path] (failed fetch, missing engine, engine call
    raising, for instance on a timeout, or any exit code), the cleanup
    runs after each of them without changing the outcome, and where the
    file is already absent the cleanup does nothing. *)
Theorem temporary_copy_is_always_removed E bucket key w :
  (mkstemp E w ∉ fs (after (scan_file E bucket key) w))
  /\ (mkstemp E w ∈ fs (after (NamedTemporaryFile E) w))
  /\ outcome (scan_file E bucket key) w
     = outcome (scan_body E bucket key (mkstemp E w))
               (after (NamedTemporaryFile E) w)
  /\ scan_path E bucket key (mkstemp E w)
       (outcome (scan_file E bucket key) w)
       (emitted (scan_file E bucket key) w)
  /\ (forall path w1,
        (path ∉ fs w1) -> scan_cleanup path w1 = (Ok tt, w1))
  /\ (forall path w1,
        outcome (scan_cleanup path) w1 = Ok tt
        /\ (path ∉ fs (after (scan_cleanup path) w1))).
Proof.
  split; [| split; [| split; [| split; [| split]]]].
  - destruct (scan_file_runs E bucket key w) as (r & evs & w' & Hr & _ & Hgone).
    now rewrite (runs_after _ _ _ _ _ Hr).
  - cbn. apply elem_of_union. left. now apply elem_of_singleton.
  - unfold outcome, after, scan_file, bind, NamedTemporaryFile.
    cbn [fst snd]. unfold try_finally.
    destruct (scan_body E bucket key (mkstemp E w)
                (with_fs ({[ mkstemp E w ]} ∪ fs w) w)) as [r w1].
    destruct (scan_cleanup_runs (mkstemp E w) w1) as (w2 & [Hc _] & _).
    now rewrite Hc.
  - destruct (scan_file_runs E bucket key w) as (r & evs & w' & Hr & P & _).
    now rewrite (runs_outcome _ _ _ _ _ Hr), (runs_emitted _ _ _ _ _ Hr).
  - intros path w1 Habsent.
    destruct (scan_cleanup_runs path w1) as (w2 & [Hc _] & _ & Hsame).
    now rewrite Hc, (Hsame Habsent).
  - intros path w1.
    destruct (scan_cleanup_runs path w1) as (w2 & Hc & Hgone & _).
    now rewrite (runs_outcome _ _ _ _ _ Hc), (runs_after _ _ _ _ _ Hc).
Qed.

Lemma only_concerns bucket key evs :
  only [KPrint; KPublish; KRun] evs -> Forall (concerns bucket key) evs.
Proof.
  unfold only. intros H. eapply Forall_impl; [exact H |].
  intros [| [] |]; cbn; intuition discriminate.
Qed.

Section OneObject.

Variable E : Env.

Lemma alert_path_concerns bucket key ty data evs :
  alert_path E ty data evs -> Forall (concerns bucket key) evs.
Proof.
  intros H. apply only_concerns.
  eapply only_more; [| eapply alert_path_only; eassumption].
  intros k; kinds.
Qed.

Lemma tag_path_concerns bucket key status details evs :
  tag_path bucket key status details evs -> Forall (concerns bucket key) evs.
Proof. intros []; repeat constructor. Qed.

Lemma scan_path_concerns bucket key tmp_path r evs :
  scan_path E bucket key tmp_path r evs -> Forall (concerns bucket key) evs.
Proof. intros []; repeat constructor. Qed.

Lemma quarantine_path_concerns bucket key scan_result r evs :
  quarantine_path E bucket key scan_result r evs ->
  Forall (concerns bucket key) evs.
Proof.
  intros []; repeat (apply List.Forall_cons; [now cbn |]);
    eapply alert_path_concerns; eassumption.
Qed.

End OneObject.

Ltac solve_concerns :=
  repeat first
    [ apply List.Forall_nil
    | apply List.Forall_cons; [now cbn |]
    | apply Forall_app; split
    | eapply scan_path_concerns; eassumption
    | eapply tag_path_concerns; eassumption
    | eapply quarantine_path_concerns; eassumption
    | eapply alert_path_concerns; eassumption ].

(** C10.  For a notification of the records-list shape, [parse_event]
    reads the bucket, the key and the size from the first record alone: it
    gives what it gives on the notification reduced to that record.  All
    storage calls of the invocation are about that one bucket and key. *)
Theorem only_the_first_record_is_processed E event ctx w record rest :
  dict_contains "detail" event = false ->
  dict_get "Records" event = Some (PList (record :: rest)) ->
  parse_event E event = parse_event E [("Records", PList [record])]
  /\ (forall bucket key size,
        parse_event E [("Records", PList [record])] = Ok (bucket, key, size) ->
        Forall (concerns bucket key) (emitted (handler E event ctx) w)).
Proof.
  intros Hdetail Hrecords.
  assert (Hparse : parse_event E event
                   = parse_event E [("Records", PList [record])]).
  { unfold parse_event, dict_contains. rewrite Hrecords.
    unfold dict_contains in Hdetail. rewrite Hdetail. cbn.
    rewrite Hrecords. reflexivity. }
  split; [exact Hparse |].
  intros bucket key size Hfirst. rewrite <- Hparse in Hfirst.
  run_handler E event ctx w r evs P.
  outer_paths; solve_concerns.
Qed.

(** ** The model on concrete inputs *)

Module Checks.

Import Demo.

Example strip_trims_both_ends :
  Str.strip (String "009" " Eicar FOUND " ++ String "010" "") = "Eicar FOUND".
Proof. reflexivity. Qed.

Example or_takes_first_nonempty :
  Str.or "" "stderr text" = "stderr text" /\ Str.or "out" "err" = "out".
Proof. split; reflexivity. Qed.

Example splitext_cases :
  splitext "docs/report.final.PDF" = ("docs/report.final", ".PDF")
  /\ splitext "photos.jpg/readme" = ("photos.jpg/readme", "")
  /\ splitext "dir/.jpg" = ("dir/.jpg", "")
  /\ splitext "dir/..jpg" = ("dir/..jpg", "")
  /\ splitext "a." = ("a", ".").
Proof. repeat split; reflexivity. Qed.

Example extension_gate_ignores_case :
  bool_decide (snd (splitext (Str.lower "Clips/Holiday.MoV")) ∈ SKIP_EXTENSIONS)
  = true
  /\ bool_decide (snd (splitext (Str.lower "setup.exe")) ∈ SKIP_EXTENSIONS)
     = false
  /\ bool_decide (snd (splitext (Str.lower ".mp4")) ∈ SKIP_EXTENSIONS)
     = false.
Proof. repeat split; vm_compute; reflexivity. Qed.

Example py_int_cases :
  py_int " 250 " = Some 250 /\ py_int "1_000" = Some 1000
  /\ py_int "-5" = Some (-5) /\ py_int "" = None /\ py_int "5MB" = None.
Proof. repeat split; reflexivity. Qed.

Example default_configuration :
  load_config ∅
  = Some {| QUARANTINE_BUCKET := "";
            ALERT_TOPIC_ARN := "";
            CLAM_DB_PATH := "/opt/clamav/share/clamav";
            CLAMSCAN_PATH := "/opt/clamav/bin/clamscan";
            MAX_FILE_SIZE := 524288000 |}.
Proof. reflexivity. Qed.

Example configured_ceiling :
  option_map MAX_FILE_SIZE (load_config {[ "MAX_FILE_SIZE_MB" := "10" ]})
  = Some 10485760
  /\ load_config {[ "MAX_FILE_SIZE_MB" := "ten" ]} = None.
Proof. split; vm_compute; reflexivity. Qed.

Example timestamps :
  strftime_Ymd noon = "2024/03/05"
  /\ isoformat noon = "2024-03-05T12:00:07"
  /\ isoformat {| year := 2024; month := 12; day := 31; hour := 23;
                  minute := 59; second := 59; microsecond := 1500 |}
     = "2024-12-31T23:59:59.001500".
Proof. repeat split; reflexivity. Qed.

Example direct_notification_parses :
  parse_event (env (script all_fine true (Exited eicar)))
    (s3_notification [s3_record "uploads" "a.pdf" 10])
  = Ok (PStr "uploads", PStr "a.pdf", PInt 10).
Proof. reflexivity. Qed.

Example size_defaults_to_zero :
  parse_event (env (script all_fine true (Exited eicar)))
    [("detail", PDict [("bucket", PDict [("name", PStr "uploads")]);
                       ("object", PDict [("key", PStr "a.pdf")])])]
  = Ok (PStr "uploads", PStr "a.pdf", PInt 0).
Proof. reflexivity. Qed.

Example empty_records_list :
  parse_event (env (script all_fine true (Exited eicar))) (s3_notification [])
  = Raise (IndexError "list index out of range").
Proof. reflexivity. Qed.

(** A refused fetch: the exception leaves [scan_file], the temporary file
    does not stay. *)
Example cleanup_after_refused_fetch :
  let E := env (script fetch_denied true (Exited eicar)) in
  let run := scan_file E (PStr "uploads") (PStr "gone.pdf") in
  outcome run empty_world = Raise (ClientError "NoSuchKey")
  /\ elements (fs (after run empty_world)) = ["/opt/clamav/bin/clamscan"]
  /\ emitted run empty_world
     = [Print "Downloading s3://uploads/gone.pdf to /tmp/tmpa1b2c3";
        Api (download_file (PStr "uploads") (PStr "gone.pdf") "/tmp/tmpa1b2c3")
            (Some "NoSuchKey")].
Proof. repeat split; vm_compute; reflexivity. Qed.

(** A fetch that leaves nothing at the temporary path: the cleanup finds
    no file and the verdict of the engine is returned. *)
Example cleanup_without_file :
  let E := env {| topic := "";
                  failing := all_fine;
                  engine_installed := true;
                  engine := exits 0 "" "";
                  fetch_keeps_file := false |} in
  outcome (scan_file E (PStr "uploads") (PStr "a.pdf")) empty_world
  = Ok {| infected := false; details := "No threats detected" |}.
Proof. reflexivity. Qed.

End Checks.

(** ** The theorems at concrete inputs *)

Module Scenario.

Import Demo.










Lemma only_the_first_record_is_processed_witness :
  let E := env (script all_fine true (Exited eicar)) in
  let first := s3_record "uploads" "a.pdf" 10 in
  let second := s3_record "archive" "b.pdf" 20 in
  parse_event E (s3_notification [first; second])
  = Ok (PStr "uploads", PStr "a.pdf", PInt 10)
  /\ Forall (concerns (PStr "uploads") (PStr "a.pdf"))
       (emitted (handler E (s3_notification [first; second]) PNone)
                empty_world).
Proof.
  split; [reflexivity |].
  apply (proj2 (only_the_first_record_is_processed
                  (env (script all_fine true (Exited eicar)))
                  (s3_notification [s3_record "uploads" "a.pdf" 10;
                                    s3_record "archive" "b.pdf" 20])
                  PNone empty_world
                  (s3_record "uploads" "a.pdf" 10)
                  [s3_record "archive" "b.pdf" 20]
                  eq_refl eq_refl)
               (PStr "uploads") (PStr "a.pdf") (PInt 10)).
  reflexivity.
Defined.



End Scenario.

(** * Further properties of the module *)

(** ** Alerts *)


Lemma alert_path_publication E ty data evs topic subject message error :
  alert_path E ty data evs ->
  In (Api (publish topic subject message) error) evs ->
  topic = ALERT_TOPIC_ARN (cfg E)
  /\ topic <> ""
  /\ subject = "[SECURITY ALERT] " ++ ty
  /\ exists now,
      message
      = json_dumps E (Some 2%nat)
          (PDict (dict_update [("type", PStr ty);
                               ("timestamp", PStr (isoformat now))] data)).
Proof.
  intros [ts err Ht | ts Ht | ts msg Ht] Hin; unfold alert in Hin;
    rewrite Ht in Hin; split_in Hin; try discriminate Hin.
  all: inversion Hin; subst; clear Hin.
  all: split; [reflexivity |].
  all: split; [intros Hempty; rewrite Hempty in Ht; discriminate Ht |].
  all: split; [reflexivity | eexists; reflexivity].
Qed.

(** X2.  Every publication of an invocation is an alert on the configured
    topic with the fixed envelope: the subject is "[SECURITY ALERT] "
    followed by the type, and the message is the JSON text of a dict that
    starts with 'type' and 'timestamp' and continues with the payload of
    that type.  No payload of the module overrides the two envelope
    fields, and there are three types only. *)
Theorem published_alerts_keep_their_envelope
    E event ctx w topic subject text error :
  In (Api (publish topic subject text) error)
     (emitted (handler E event ctx) w) ->
  topic = ALERT_TOPIC_ARN (cfg E)
  /\ topic <> ""
  /\ exists alert_type message now,
      subject = "[SECURITY ALERT] " ++ alert_type
      /\ text = json_dumps E (Some 2%nat) (PDict message)
      /\ dict_get "type" message = Some (PStr alert_type)
      /\ dict_get "timestamp" message = Some (PStr (isoformat now))
      /\ ((alert_type = "SCAN_ERROR"
           /\ map fst message = ["type"; "timestamp"; "error"; "event"]
           /\ dict_get "event" message = Some (PDict event))
          \/ (alert_type = "MALWARE_DETECTED"
              /\ map fst message
                 = ["type"; "timestamp"; "bucket"; "key"; "scan_result";
                    "quarantine_location"; "action"])
          \/ (alert_type = "QUARANTINE_FAILED"
              /\ map fst message
                 = ["type"; "timestamp"; "bucket"; "key"; "scan_result";
                    "error"])).
Proof.
  intros Hin.
  run_handler E event ctx w r evs P.
  outer_paths; sift Hin.
  all: try match goal with
       | H : quarantine_path _ _ _ _ _ _ |- _ => invert_path H; sift Hin
       end.
  all: match goal with
       | H : alert_path _ _ _ ?l, Hin : In _ ?l |- _ =>
           destruct (alert_path_publication _ _ _ _ _ _ _ _ H Hin)
             as (Ht & Hne & Hs & ts & Hm)
       end.
  all: split; [exact Ht |]; split; [exact Hne |].
  all: do 2 eexists; exists ts; split; [exact Hs |]; split; [exact Hm |].
  all: unfold scan_error_report, malware_report, quarantine_failure_report.
  all: split; [reflexivity |]; split; [reflexivity |].
  all: first [ left; repeat split; reflexivity
             | right; left; repeat split; reflexivity
             | right; right; repeat split; reflexivity ].
Qed.

(** ** Reading the event *)

Lemma dict_contains_get k d :
  dict_contains k d = true <-> exists v, dict_get k d = Some v.
Proof.
  unfold dict_contains. destruct (dict_get k d).
  - split; eauto.
  - split; [discriminate | intros [v Hv]; discriminate].
Qed.

(** X3.  For an event with a 'detail' key, [parse_event] succeeds exactly
    when detail.bucket.name and detail.object.key can be looked up through
    dicts; it returns these two values and detail.object.size, or 0 when
    the object has no 'size'. *)
Theorem eventbridge_event_parses_iff E event bucket key size :
  dict_contains "detail" event = true ->
  parse_event E event = Ok (bucket, key, size)
  <-> lookup_path (PDict event) ["detail"; "bucket"; "name"] = Some bucket
      /\ lookup_path (PDict event) ["detail"; "object"; "key"] = Some key
      /\ exists object,
          lookup_path (PDict event) ["detail"; "object"] = Some (PDict object)
          /\ size = match dict_get "size" object with
                    | Some s => s
                    | None => PInt 0
                    end.
Proof.
  intros Hd. apply dict_contains_get in Hd as [detail Hd].
  unfold parse_event, dict_contains. rewrite Hd. cbn. rewrite Hd.
  destruct detail as [| | | | | d]; cbn;
    try (split; [discriminate | intros (H & _); discriminate]).
  destruct (dict_get "bucket" d) as [b |]; cbn;
    [| split; [discriminate | intros (H & _); discriminate]].
  destruct b as [| | | | | bd]; cbn;
    try (split; [discriminate | intros (H & _); discriminate]).
  destruct (dict_get "name" bd) as [name |]; cbn;
    [| split; [discriminate | intros (H & _); discriminate]].
  destruct (dict_get "object" d) as [o |]; cbn;
    [| split; [discriminate | intros (_ & H & _); discriminate]].
  destruct o as [| | | | | od]; cbn;
    try (split; [discriminate | intros (_ & H & _); discriminate]).
  destruct (dict_get "key" od) as [kv |]; cbn;
    [| split; [discriminate | intros (_ & H & _); discriminate]].
  split.
  - intros H. inversion H; subst. repeat split. now exists od.
  - intros (Hb & Hk & object & Ho & Hs). inversion Hb. inversion Hk.
    inversion Ho. subst. reflexivity.
Qed.

Lemma parse_event_first_record E event record rest :
  dict_contains "detail" event = false ->
  dict_get "Records" event = Some (PList (record :: rest)) ->
  parse_event E event = parse_event E [("Records", PList [record])].
Proof.
  intros Hdetail Hrecords.
  unfold parse_event, dict_contains. rewrite Hrecords.
  unfold dict_contains in Hdetail. rewrite Hdetail. cbn.
  now rewrite Hrecords.
Qed.

Lemma parse_event_records E event records :
  dict_contains "detail" event = false ->
  dict_get "Records" event = Some records ->
  parse_event E event = parse_event E [("Records", records)].
Proof.
  intros Hdetail Hrecords.
  unfold parse_event, dict_contains. rewrite Hrecords.
  unfold dict_contains in Hdetail. rewrite Hdetail. cbn.
  now rewrite Hrecords.
Qed.

Lemma single_record_parses_iff E record bucket key size :
  parse_event E [("Records", PList [record])] = Ok (bucket, key, size)
  <-> lookup_path record ["s3"; "bucket"; "name"] = Some bucket
      /\ lookup_path record ["s3"; "object"; "key"] = Some key
      /\ exists object,
          lookup_path record ["s3"; "object"] = Some (PDict object)
          /\ size = match dict_get "size" object with
                    | Some s => s
                    | None => PInt 0
                    end.
Proof.
  unfold parse_event. cbn.
  destruct record as [| | | | | rd]; cbn;
    try (split; [discriminate | intros (H & _); discriminate]).
  destruct (dict_get "s3" rd) as [s3 |]; cbn;
    [| split; [discriminate | intros (H & _); discriminate]].
  destruct s3 as [| | | | | d]; cbn;
    try (split; [discriminate | intros (H & _); discriminate]).
  destruct (dict_get "bucket" d) as [b |]; cbn;
    [| split; [discriminate | intros (H & _); discriminate]].
  destruct b as [| | | | | bd]; cbn;
    try (split; [discriminate | intros (H & _); discriminate]).
  destruct (dict_get "name" bd) as [name |]; cbn;
    [| split; [discriminate | intros (H & _); discriminate]].
  destruct (dict_get "object" d) as [o |]; cbn;
    [| split; [discriminate | intros (_ & H & _); discriminate]].
  destruct o as [| | | | | od]; cbn;
    try (split; [discriminate | intros (_ & H & _); discriminate]).
  destruct (dict_get "key" od) as [kv |]; cbn;
    [| split; [discriminate | intros (_ & H & _); discriminate]].
  split.
  - intros H. inversion H; subst. repeat split. now exists od.
  - intros (Hb & Hk & object & Ho & Hs). inversion Hb. inversion Hk.
    inversion Ho. subst. reflexivity.
Qed.

(** X4.  For an event without 'detail' but with 'Records', [parse_event]
    succeeds exactly when 'Records' is a non-empty list whose first record
    lets s3.bucket.name and s3.object.key be looked up through dicts; it
    returns these two values and s3.object.size, or 0 when the object has
    no 'size'. *)
Theorem s3_notification_parses_iff E event bucket key size :
  dict_contains "detail" event = false ->
  dict_contains "Records" event = true ->
  parse_event E event = Ok (bucket, key, size)
  <-> exists record rest,
      dict_get "Records" event = Some (PList (record :: rest))
      /\ lookup_path record ["s3"; "bucket"; "name"] = Some bucket
      /\ lookup_path record ["s3"; "object"; "key"] = Some key
      /\ exists object,
          lookup_path record ["s3"; "object"] = Some (PDict object)
          /\ size = match dict_get "size" object with
                    | Some s => s
                    | None => PInt 0
                    end.
Proof.
  intros Hd Hr. split.
  - intros Hparse.
    apply dict_contains_get in Hr as [records Hrecords].
    rewrite (parse_event_records E event records Hd Hrecords) in Hparse.
    destruct records as [| | | [| c s] | [| record rest] | d];
      try discriminate Hparse.
    exists record, rest. split; [exact Hrecords |].
    apply (proj1 (single_record_parses_iff E record bucket key size)).
    exact Hparse.
  - intros (record & rest & Hrecords & Hfields).
    rewrite (parse_event_first_record E event record rest Hd Hrecords).
    exact (proj2 (single_record_parses_iff E record bucket key size) Hfields).
Qed.

Lemma subscript_error v k e :
  subscript v k = Raise e -> forall msg, e <> ValueError msg.
Proof.
  destruct v as [| | | | | d]; cbn; try (intros H; inversion H; discriminate).
  destruct (dict_get k d); intros H; inversion H; discriminate.
Qed.

Lemma subscript0_error v e :
  subscript0 v = Raise e -> forall msg, e <> ValueError msg.
Proof.
  destruct v as [| | | [| c s] | [| x l] | d]; cbn; intros H; inversion H;
    discriminate.
Qed.

Lemma get_default_error v k default e :
  get_default v k default = Raise e -> forall msg, e <> ValueError msg.
Proof.
  destruct v; cbn; intros H; inversion H; discriminate.
Qed.

Ltac step_parse H :=
  match type of H with
  | match subscript ?v ?k with _ => _ end = Raise _ =>
      let e := fresh "e" in
      let He := fresh "He" in
      destruct (subscript v k) as [? | e] eqn:He;
      [| inversion H; subst; exact (subscript_error _ _ _ He _ eq_refl)]
  | match subscript0 ?v with _ => _ end = Raise _ =>
      let e := fresh "e" in
      let He := fresh "He" in
      destruct (subscript0 v) as [? | e] eqn:He;
      [| inversion H; subst; exact (subscript0_error _ _ He _ eq_refl)]
  | match get_default ?v ?k ?d with _ => _ end = Raise _ =>
      let e := fresh "e" in
      let He := fresh "He" in
      destruct (get_default v k d) as [? | e] eqn:He;
      [| inversion H; subst; exact (get_default_error _ _ _ _ He _ eq_refl)]
  end.

(** X5.  [parse_event] raises its own ValueError ("Unknown event format")
    exactly for the events that have neither a 'detail' nor a 'Records'
    key; an event with one of these keys whose inside is not as expected
    fails with the interpreter's KeyError, TypeError, IndexError or
    AttributeError instead. *)
Theorem unknown_format_iff_neither_key E event :
  (exists msg, parse_event E event = Raise (ValueError msg))
  <-> dict_contains "detail" event = false
      /\ dict_contains "Records" event = false.
Proof.
  split.
  - intros [msg H]. unfold parse_event in H.
    destruct (dict_contains "detail" event);
      [| destruct (dict_contains "Records" event)]; [| | now split].
    + exfalso. cbv zeta beta in H.
      repeat step_parse H; try discriminate H.
    + exfalso. cbv zeta beta in H.
      repeat step_parse H; try discriminate H.
  - intros [Hd Hr]. eexists. unfold parse_event. now rewrite Hd, Hr.
Qed.

(** ** What an invocation does *)

Lemma is_tagging_kind e : is_tagging e = true -> kind_of e = KTagging.
Proof. now destruct e as [| [] |]. Qed.

Lemma is_copy_kind e : is_copy e = true -> kind_of e = KCopy.
Proof. now destruct e as [| [] |]. Qed.

(** Proves that a filter selecting one kind of effect finds nothing in a
    trace built from paths that do not produce it. *)
Ltac nothing_of kind_lemma ks :=
  solve [ eapply (filter_only _ _ ks);
          [exact kind_lemma | solve_only | no_kind] ].

(** Searches a trace for an effect that is written out in it or known to
    be in one of its parts. *)
Ltac seek :=
  lazymatch goal with
  | |- In _ (_ ++ _) => apply in_or_app; seek
  | |- In _ (_ :: _) => cbn [In]; seek
  | |- _ \/ _ => first [left; seek | right; seek]
  | |- _ = _ => reflexivity
  | |- In _ _ => eassumption
  end.

(** X6.  The status-200 responses tell what was done.  "Infected file
    quarantined" is returned only after a successful copy and a successful
    delete of the same object and a MALWARE_DETECTED alert, and then no
    tag was written; each of the three other responses is returned only
    after a tag-writing call, and then nothing was copied or deleted.
    There is no other response. *)
Theorem response_tells_what_was_done E event ctx w response :
  outcome (handler E event ctx) w = Ok response ->
  statusCode response = 200
  /\ ((body response = "Infected file quarantined"
       /\ (exists bucket key dst_bucket dst_key metadata directive,
              In (Api (copy_object bucket key dst_bucket dst_key metadata
                         directive) None)
                 (emitted (handler E event ctx) w)
              /\ In (Api (delete_object bucket key) None)
                    (emitted (handler E event ctx) w))
       /\ (exists data,
              alerted E "MALWARE_DETECTED" data
                (emitted (handler E event ctx) w))
       /\ List.filter is_tagging (emitted (handler E event ctx) w) = [])
      \/ (In (body response)
             ["File too large - skipped";
              "Media file - basic validation passed";
              "File scanned - clean"]
          /\ (exists bucket key tags error,
                 In (Api (put_object_tagging bucket key tags) error)
                    (emitted (handler E event ctx) w))
          /\ List.filter is_copy (emitted (handler E event ctx) w) = []
          /\ List.filter is_delete (emitted (handler E event ctx) w) = [])).
Proof.
  intros Hok.
  run_handler E event ctx w r evs P.
  subst r. outer_paths.
  - (* too large *)
    match goal with
    | H : tag_path _ _ _ _ _ |- _ =>
        destruct (tag_path_tagged _ _ _ _ _ H) as (ts & err & Ht)
    end.
    split; [reflexivity |]. right. split; [cbn; tauto |].
    split;
      [match type of Ht with
       | In (Api (put_object_tagging ?b ?k ?t) ?e) _ =>
           exists b, k, t, e; find_in
       end |].
    split; [nothing_of is_copy_kind [KPrint; KTagging]
           | nothing_of is_delete_kind [KPrint; KTagging]].
  - (* media *)
    match goal with
    | H : tag_path _ _ _ _ _ |- _ =>
        destruct (tag_path_tagged _ _ _ _ _ H) as (ts & err & Ht)
    end.
    split; [reflexivity |]. right. split; [cbn; tauto |].
    split;
      [match type of Ht with
       | In (Api (put_object_tagging ?b ?k ?t) ?e) _ =>
           exists b, k, t, e; find_in
       end |].
    split; [nothing_of is_copy_kind [KPrint; KTagging]
           | nothing_of is_delete_kind [KPrint; KTagging]].
  - (* infected *)
    match goal with
    | H : quarantine_path _ _ _ _ _ _ |- _ => invert_path H
    end; try absurd_outcome.
    match goal with
    | H : Ok _ = Ok _ |- _ => inversion H; subst; clear H
    end.
    match goal with
    | H : alert_path _ "MALWARE_DETECTED" _ _ |- _ =>
        pose proof (alert_path_alerted _ _ _ _ H) as Ha
    end.
    split; [reflexivity |]. left. split; [reflexivity |].
    split; [| split].
    + do 6 eexists. unfold quarantine_copy. split; seek.
    + destruct Ha as (ts & err & Ha). eexists. exists ts, err. seek.
    + nothing_of is_tagging_kind
        [KPrint; KDownload; KRun; KCopy; KDelete; KPublish].
  - (* clean *)
    match goal with
    | H : tag_path _ _ _ _ _ |- _ =>
        destruct (tag_path_tagged _ _ _ _ _ H) as (ts & err & Ht)
    end.
    split; [reflexivity |]. right. split; [cbn; tauto |].
    split;
      [match type of Ht with
       | In (Api (put_object_tagging ?b ?k ?t) ?e) _ =>
           exists b, k, t, e; find_in
       end |].
    split; [nothing_of is_copy_kind [KPrint; KDownload; KRun; KTagging]
           | nothing_of is_delete_kind [KPrint; KDownload; KRun; KTagging]].
Qed.

(** X7.  An invocation never both writes a tag and starts a quarantine:
    its trace has no tag-writing call, or it has neither a copy nor a
    delete. *)
Theorem tagging_and_quarantine_exclude_each_other E event ctx w :
  List.filter is_tagging (emitted (handler E event ctx) w) = []
  \/ (List.filter is_copy (emitted (handler E event ctx) w) = []
      /\ List.filter is_delete (emitted (handler E event ctx) w) = []).
Proof.
  run_handler E event ctx w r evs P.
  outer_paths;
    first
      [ left;
        nothing_of is_tagging_kind
          [KPrint; KDownload; KRun; KCopy; KDelete; KPublish]
      | right; split;
        [ nothing_of is_copy_kind
            [KPrint; KDownload; KRun; KTagging; KPublish]
        | nothing_of is_delete_kind
            [KPrint; KDownload; KRun; KTagging; KPublish] ] ].
Qed.



Section AlertFacts.

Variable E : Env.


Lemma scan_path_no_alert bucket key tmp_path r evs ty :
  scan_path E bucket key tmp_path r evs ->
  existsb (is_alert ty) evs = false.
Proof. intros []; reflexivity. Qed.



Lemma scan_error_is_no_malware_alert ty data evs :
  ty = "SCAN_ERROR" \/ ty = "QUARANTINE_FAILED" ->
  alert_path E ty data evs ->
  existsb (is_alert "MALWARE_DETECTED") evs = false.
Proof.
  intros Hty [ts err Ht | ts Ht | ts msg Ht]; unfold alert; rewrite Ht;
    destruct Hty; subst; reflexivity.
Qed.


End AlertFacts.



Lemma next_to_here a b l : next_to a b (a :: b :: l).
Proof. now exists [], l. Qed.

Lemma next_to_cons a b x l : next_to a b l -> next_to a b (x :: l).
Proof. intros (l1 & l2 & ->). now exists (x :: l1), l2. Qed.

Lemma next_to_app_r a b l1 l2 : next_to a b l2 -> next_to a b (l1 ++ l2).
Proof.
  intros (l3 & l4 & ->). exists (l1 ++ l3)%list, l4. now rewrite <- app_assoc.
Qed.

Lemma next_to_app_l a b l1 l2 : next_to a b l1 -> next_to a b (l1 ++ l2).
Proof.
  intros (l3 & l4 & ->). exists l3, (l4 ++ l2)%list.
  now rewrite <- app_assoc.
Qed.

Ltac seek_pair :=
  lazymatch goal with
  | |- next_to _ _ (_ ++ _) =>
      first [ apply next_to_app_l; seek_pair | apply next_to_app_r; seek_pair ]
  | |- next_to _ _ (_ :: _) =>
      first [ apply next_to_here | apply next_to_cons; seek_pair ]
  end.

(** X9.  The original is deleted only after its quarantine copy: every
    delete call of an invocation comes directly after a successful copy of
    that same object into the quarantine bucket, in an invocation whose
    engine run ended with exit code 1. *)
Theorem original_is_deleted_only_after_its_copy E event ctx w bucket key error :
  In (Api (delete_object bucket key) error) (emitted (handler E event ctx) w) ->
  exists dst_key metadata args timeout p,
    next_to (Api (copy_object bucket key (QUARANTINE_BUCKET (cfg E)) dst_key
                    metadata "REPLACE") None)
            (Api (delete_object bucket key) error)
            (emitted (handler E event ctx) w)
    /\ In (Run args timeout (Exited p)) (emitted (handler E event ctx) w)
    /\ returncode p = 1.
Proof.
  intros Hin.
  run_handler E event ctx w r evs P.
  outer_paths; sift Hin.
  all: match goal with
       | H : quarantine_path _ _ _ _ _ _ |- _ => invert_path H
       end;
    sift Hin.
  all: inversion Hin; subst; clear Hin.
  all: match goal with
       | H : scan_path _ _ _ _ _ _ |- _ => invert_path H
       end;
    try absurd_outcome.
  all: do 5 eexists; unfold quarantine_copy; cbn [app];
    split; [seek_pair | split; [seek | eassumption]].
Qed.

(** Removes the filters of the parts of a trace that cannot hold the kind
    of effect looked for. *)
Ltac drop_filters kind_lemma :=
  repeat match goal with
    | O : only _ ?l |- context [List.filter ?f ?l] =>
        rewrite (filter_only f _ _ l kind_lemma O) by no_kind
    end.

(** Pushes a filter through a trace down to its parts. *)
Ltac filter_parts :=
  repeat first
    [ rewrite List.filter_app
    | progress (unfold_lines;
                cbn [List.filter app is_delete is_copy is_tagging
                     is_download is_engine_run]) ].

(** X10.  When the delete of the original fails after its copy succeeded,
    nothing is rolled back or retried: the invocation raises that failure,
    has emitted a QUARANTINE_FAILED alert and no MALWARE_DETECTED alert,
    and the object is left both in place and in quarantine. *)
Theorem failed_delete_leaves_both_copies E event ctx w bucket key msg :
  In (Api (delete_object bucket key) (Some msg))
     (emitted (handler E event ctx) w) ->
  outcome (handler E event ctx) w = Raise (ClientError msg)
  /\ (exists scan_result,
        alerted E "QUARANTINE_FAILED"
          [("bucket", bucket);
           ("key", key);
           ("scan_result", PStr (details scan_result));
           ("error", PStr msg)]
          (emitted (handler E event ctx) w))
  /\ existsb (is_alert "MALWARE_DETECTED") (emitted (handler E event ctx) w)
     = false
  /\ List.filter is_delete (emitted (handler E event ctx) w)
     = [Api (delete_object bucket key) (Some msg)]
  /\ (exists dst_bucket dst_key metadata directive,
        List.filter is_copy (emitted (handler E event ctx) w)
        = [Api (copy_object bucket key dst_bucket dst_key metadata directive)
               None]).
Proof.
  intros Hin.
  run_handler E event ctx w r evs P.
  outer_paths; sift Hin.
  all: match goal with
       | H : quarantine_path _ _ _ _ _ _ |- _ => invert_path H
       end;
    sift Hin.
  inversion Hin; subst; clear Hin.
  match goal with
  | H : alert_path _ "QUARANTINE_FAILED" _ _ |- _ =>
      destruct (alert_path_alerted _ _ _ _ H) as (ts & err & Ha);
      pose proof (scan_error_is_no_malware_alert _ _ _ _
                    (or_intror eq_refl) H) as Hq;
      pose proof (alert_path_only _ _ _ _ H) as Oq
  end.
  match goal with
  | H : alert_path _ "SCAN_ERROR" _ _ |- _ =>
      pose proof (scan_error_is_no_malware_alert _ _ _ _
                    (or_introl eq_refl) H) as Hs;
      pose proof (alert_path_only _ _ _ _ H) as Os
  end.
  match goal with
  | H : scan_path _ _ _ _ _ _ |- _ =>
      pose proof (scan_path_no_alert _ _ _ _ _ _ "MALWARE_DETECTED" H) as Hn;
      pose proof (scan_path_only _ _ _ _ _ _ H) as On
  end.
  split; [reflexivity |]. split; [| split; [| split]].
  - exists scan_result. exists ts, err. seek.
  - repeat first [rewrite existsb_app | progress cbn [existsb app]].
    rewrite Hq, Hs, Hn. reflexivity.
  - filter_parts. drop_filters is_delete_kind. reflexivity.
  - do 4 eexists. filter_parts. drop_filters is_copy_kind. reflexivity.
Qed.

(** X11.  When the engine exits with code 0, [scan_file] returns
    infected=false with details "No threats detected"; the handler tags
    the object [clean] without details, returns "File scanned - clean",
    and neither copies, deletes nor alerts. *)
Theorem clean_verdict_tags_clean E event ctx w args timeout p :
  In (Run args timeout (Exited p)) (emitted (handler E event ctx) w) ->
  returncode p = 0 ->
  (forall bucket key w0,
      In (Run args timeout (Exited p)) (emitted (scan_file E bucket key) w0) ->
      outcome (scan_file E bucket key) w0
      = Ok {| infected := false; details := "No threats detected" |})
  /\ outcome (handler E event ctx) w
     = Ok {| statusCode := 200; body := "File scanned - clean" |}
  /\ (exists bucket key size,
        parse_event E event = Ok (bucket, key, size)
        /\ tagged bucket key "clean" "" (emitted (handler E event ctx) w))
  /\ only [KPrint; KDownload; KRun; KTagging]
       (emitted (handler E event ctx) w).
Proof.
  intros Hin H0. split.
  { intros bucket key w0 Hin0.
    destruct (scan_file_runs E bucket key w0) as (r & evs & w' & Hr & P & _).
    rewrite (runs_emitted _ _ _ _ _ Hr) in Hin0.
    rewrite (runs_outcome _ _ _ _ _ Hr).
    invert_path P; sift Hin0;
      inversion Hin0; subst; clear Hin0; try lia. reflexivity. }
  run_handler E event ctx w r evs P.
  outer_paths; sift Hin.
  all: match goal with
       | H : scan_path _ _ _ _ _ _ |- _ =>
           pose proof (scan_path_only _ _ _ _ _ _ H); invert_path H
       end;
    sift Hin;
    inversion Hin; subst; clear Hin; try lia; try absurd_outcome.
  match goal with
  | H : tag_path _ _ _ _ _ |- _ =>
      destruct (tag_path_tagged _ _ _ _ _ H) as (ts & err & Ht)
  end.
  split; [reflexivity |]. split.
  - do 3 eexists. split; [eassumption |]. exists ts, err. seek.
  - solve_only.
Qed.

(** X12.  A refused fetch is fatal for the invocation: the handler raises
    that failure after a SCAN_ERROR alert, the engine is not run, and the
    object is neither tagged nor quarantined. *)
Theorem refused_fetch_fails_the_invocation E event ctx w bucket key path msg :
  In (Api (download_file bucket key path) (Some msg))
     (emitted (handler E event ctx) w) ->
  outcome (handler E event ctx) w = Raise (ClientError msg)
  /\ alerted E "SCAN_ERROR" [("error", PStr msg); ("event", PDict event)]
       (emitted (handler E event ctx) w)
  /\ only [KPrint; KDownload; KPublish] (emitted (handler E event ctx) w).
Proof.
  intros Hin.
  run_handler E event ctx w r evs P.
  outer_paths; sift Hin.
  all: match goal with
       | H : scan_path _ _ _ _ _ _ |- _ => invert_path H
       end;
    sift Hin; inversion Hin; subst; clear Hin.
  match goal with
  | H : alert_path _ "SCAN_ERROR" _ _ |- _ =>
      destruct (alert_path_alerted _ _ _ _ H) as (ts & err & Ha)
  end.
  split; [reflexivity |]. split.
  - exists ts, err. seek.
  - solve_only.
Qed.

(** X13.  A size that is not a number, or a key that is not a string,
    fails the invocation before any storage call: comparing the size
    raises TypeError, lower-casing the key raises AttributeError; only log
    lines and the SCAN_ERROR alert are produced. *)
Theorem ill_typed_fields_fail_before_any_storage_call
    E event ctx w bucket key size :
  parse_event E event = Ok (bucket, key, size) ->
  (as_int size = None \/
   (exists n, as_int size = Some n /\ n <= MAX_FILE_SIZE (cfg E))
   /\ forall s, key <> PStr s) ->
  (outcome (handler E event ctx) w
   = Raise (TypeError ("'>' not supported between instances of '"
                       ++ type_name size ++ "' and 'int'"))
   \/ outcome (handler E event ctx) w
      = Raise (AttributeError ("'" ++ type_name key
                               ++ "' object has no attribute 'lower'")))
  /\ only [KPrint; KPublish] (emitted (handler E event ctx) w).
Proof.
  intros Hparse Hbad.
  assert (Hcases :
           gt_int size (MAX_FILE_SIZE (cfg E))
           = Raise (TypeError ("'>' not supported between instances of '"
                               ++ type_name size ++ "' and 'int'"))
           \/ (gt_int size (MAX_FILE_SIZE (cfg E)) = Ok false
               /\ str_lower key
                  = Raise (AttributeError
                             ("'" ++ type_name key
                              ++ "' object has no attribute 'lower'")))).
  { destruct Hbad as [Hnone | [(n & Hn & Hle) Hkey]].
    - left. unfold gt_int. now rewrite Hnone.
    - right. split; [now apply (gt_int_false _ n) |].
      destruct key; try reflexivity. now destruct (Hkey s). }
  run_handler E event ctx w r evs P.
  destruct Hcases as [Hgt | [Hgt Hlow]]; outer_paths;
    (split; [tauto | solve_only]).
Qed.

(** X14.  The engine scans the file that was fetched: every engine run of
    an invocation has the 300-second timeout and the arguments
    [CLAMSCAN_PATH, --database=CLAM_DB_PATH, --no-summary, --infected,
    path], where [path] is the local path a successful download of the
    event's object was written to just before. *)
Theorem engine_scans_the_fetched_file E event ctx w args timeout result :
  In (Run args timeout result) (emitted (handler E event ctx) w) ->
  timeout = 300
  /\ exists bucket key size path,
      parse_event E event = Ok (bucket, key, size)
      /\ args = [CLAMSCAN_PATH (cfg E);
                 "--database=" ++ CLAM_DB_PATH (cfg E);
                 "--no-summary";
                 "--infected";
                 path]
      /\ exists line,
          next_to (Api (download_file bucket key path) None) (Print line)
            (emitted (handler E event ctx) w)
          /\ next_to (Print line) (Run args timeout result)
               (emitted (handler E event ctx) w).
Proof.
  intros Hin.
  run_handler E event ctx w r evs P.
  outer_paths; sift Hin.
  all: match goal with
       | H : scan_path _ _ _ _ _ _ |- _ => invert_path H
       end;
    sift Hin; inversion Hin; subst; clear Hin.
  all: split; [reflexivity |].
  all: do 4 eexists; split; [eassumption |]; split; [reflexivity |].
  all: eexists; cbn [app]; split; seek_pair.
Qed.

(** Inverts every layer of a run of the handler, down to explicit traces. *)
Ltac all_paths :=
  outer_paths;
  repeat match goal with
    | H : scan_path _ _ _ _ _ _ |- _ => invert_path H
    | H : quarantine_path _ _ _ _ _ _ |- _ => invert_path H
    | H : tag_path _ _ _ _ _ |- _ => invert_path H
    | H : alert_path _ _ _ _ |- _ => invert_path H
    end;
  try absurd_outcome.

Ltac settle_topic :=
  unfold alert;
  repeat match goal with
    | H : Str.nonempty _ = _ |- _ => rewrite H; clear H
    end.

(** X15.  One invocation works on one object once: it issues at most one
    download, one engine run, one tag write, one quarantine copy and one
    delete, and at most two publications (the second one being the
    SCAN_ERROR alert that follows a failed quarantine). *)
Theorem every_collaborator_is_called_at_most_once E event ctx w :
  (length (List.filter is_download (emitted (handler E event ctx) w)) <= 1
   /\ length (List.filter is_engine_run (emitted (handler E event ctx) w)) <= 1
   /\ length (List.filter is_tagging (emitted (handler E event ctx) w)) <= 1
   /\ length (List.filter is_copy (emitted (handler E event ctx) w)) <= 1
   /\ length (List.filter is_delete (emitted (handler E event ctx) w)) <= 1
   /\ length (List.filter is_publish (emitted (handler E event ctx) w)) <= 2
   /\ (length (List.filter is_publish (emitted (handler E event ctx) w)) = 2
       -> existsb (is_alert "QUARANTINE_FAILED")
            (emitted (handler E event ctx) w) = true))%nat.
Proof.
  run_handler E event ctx w r evs P.
  all_paths; settle_topic; unfold_lines;
    cbn [app List.filter is_download is_engine_run is_tagging is_copy
         is_delete is_publish length];
    repeat split; try lia; try (intros H; discriminate H).
  all: intros _; rewrite ?existsb_app; cbn [existsb app];
    repeat first [ reflexivity | rewrite orb_true_r
                 | rewrite orb_true_l ].
Qed.

(** X16.  What the handler writes as tags is fixed by the route: the
    status is [skipped] or [clean], never anything else, and the only
    details ever written are the two fixed notes of the size gate and the
    media gate.  After a scan (a download is in the trace) the tag set has
    the status [clean] and the date only: the details of the scan result
    are not written. *)
Theorem tags_written_are_fixed_by_the_route
    E event ctx w bucket key tags error :
  In (Api (put_object_tagging bucket key tags) error)
     (emitted (handler E event ctx) w) ->
  (exists size, parse_event E event = Ok (bucket, key, size))
  /\ (exists now,
        tags = [ {| tag_Key := "virus-scan"; tag_Value := "skipped" |};
                 {| tag_Key := "scan-date"; tag_Value := isoformat now |};
                 {| tag_Key := "scan-details";
                    tag_Value := "File too large" |} ]
        \/ tags = [ {| tag_Key := "virus-scan"; tag_Value := "clean" |};
                    {| tag_Key := "scan-date"; tag_Value := isoformat now |};
                    {| tag_Key := "scan-details";
                       tag_Value := "Media file - basic validation" |} ]
        \/ (tags = [ {| tag_Key := "virus-scan"; tag_Value := "clean" |};
                     {| tag_Key := "scan-date";
                        tag_Value := isoformat now |} ]
            /\ existsb is_download (emitted (handler E event ctx) w) = true))
  /\ (existsb is_download (emitted (handler E event ctx) w) = true ->
      length tags = 2%nat).
Proof.
  intros Hin.
  run_handler E event ctx w r evs P.
  outer_paths; sift Hin.
  all: match goal with
       | H : tag_path _ _ _ _ _ |- _ => invert_path H
       end;
    sift Hin; inversion Hin; subst; clear Hin.
  all: split; [eexists; eassumption |].
  all: try match goal with
       | H : scan_path _ _ _ _ _ _ |- _ =>
           pose proof (scan_path_only _ _ _ _ _ _ H) as On; invert_path H
       end;
    try absurd_outcome.
  all: split;
    [ eexists; cbn;
      first [ left; reflexivity
            | right; left; reflexivity
            | right; right; split; reflexivity ]
    | first [ reflexivity | intros H; cbn in H; discriminate H ] ].
Qed.

Ltac not_this_tag :=
  let H := fresh "H" in
  intros (? & ? & H); exfalso; split_in H;
  try discriminate H; try absurd_in H;
  cbn in H; discriminate H.

(** X17.  The two gates decide the route, and nothing else does.  For an
    event with an integer size [n] and a string key: the object is tagged
    [skipped] exactly when [n] exceeds the ceiling (a size equal to the
    ceiling is not skipped); it is tagged with the media note exactly when
    it is within the ceiling and its extension is in SKIP_EXTENSIONS; and
    it is fetched for a scan exactly when it is within the ceiling and its
    extension is not in SKIP_EXTENSIONS. *)
Theorem gates_decide_the_route E event ctx w bucket name size n :
  parse_event E event = Ok (bucket, PStr name, size) ->
  as_int size = Some n ->
  (tagged bucket (PStr name) "skipped" "File too large"
     (emitted (handler E event ctx) w)
   <-> n > MAX_FILE_SIZE (cfg E))
  /\ (tagged bucket (PStr name) "clean" "Media file - basic validation"
        (emitted (handler E event ctx) w)
      <-> n <= MAX_FILE_SIZE (cfg E)
          /\ snd (splitext (Str.lower name)) ∈ SKIP_EXTENSIONS)
  /\ (existsb is_download (emitted (handler E event ctx) w) = true
      <-> n <= MAX_FILE_SIZE (cfg E)
          /\ snd (splitext (Str.lower name)) ∉ SKIP_EXTENSIONS).
Proof.
  intros Hparse Hsize.
  assert (Hlow : str_lower (PStr name) = Ok (Str.lower name)) by reflexivity.
  run_handler E event ctx w r evs P.
  destruct (Z_gt_le_dec n (MAX_FILE_SIZE (cfg E))) as [Hgt | Hle].
  - pose proof (gt_int_true _ _ _ Hsize Hgt) as Hcmp.
    outer_paths.
    match goal with
    | H : tag_path _ _ _ _ _ |- _ => invert_path H
    end.
    all: split; [| split]; split.
    all: try (intros _; assumption).
    all: try (intros [Hn _]; lia).
    all: try (intros _; do 2 eexists; seek).
    all: try not_this_tag.
    all: intros H; cbn in H; discriminate H.
  - pose proof (gt_int_false _ _ _ Hsize Hle) as Hcmp.
    outer_paths.
    all: repeat match goal with
         | H : tag_path _ _ _ _ _ |- _ => invert_path H
         | H : scan_path _ _ _ _ _ _ |- _ => invert_path H
         end;
      try absurd_outcome.
    all: split; [| split]; split.
    all: try (intros Hn; lia).
    all: try (intros [_ Hn]; contradiction).
    all: try (intros _; split; assumption).
    all: try (intros _; do 2 eexists; seek).
    all: try (intros _; unfold_lines; cbn [existsb app is_download];
              rewrite ?existsb_app; cbn [existsb app is_download];
              rewrite ?orb_true_r; reflexivity).
    all: try not_this_tag.
    all: intros H; cbn in H; discriminate H.
Qed.

(** X18.  The verdict of [scan_file] goes by the exit code alone: a result
    is infected exactly when the engine ran on the temporary copy and
    exited with code 1 (whatever it printed); and a result, infected or
    not, is only ever produced after a successful fetch. *)
Theorem verdict_goes_by_the_exit_code E bucket key w scan_result :
  outcome (scan_file E bucket key) w = Ok scan_result ->
  (infected scan_result = true
   <-> exists p,
       In (Run (clamscan_args E (mkstemp E w)) 300 (Exited p))
          (emitted (scan_file E bucket key) w)
       /\ returncode p = 1)
  /\ In (Api (download_file bucket key (mkstemp E w)) None)
        (emitted (scan_file E bucket key) w).
Proof.
  destruct (scan_file_runs E bucket key w) as (r & evs & w' & Hr & P & _).
  rewrite (runs_emitted _ _ _ _ _ Hr), (runs_outcome _ _ _ _ _ Hr).
  intros ->.
  invert_path P; cbn [infected]; (split; [split |]).
  all: try (intros H; discriminate H).
  all: try (intros _; reflexivity).
  all: try (intros (q & Hin & Hq); exfalso; sift Hin;
            inversion Hin; subst; lia).
  all: try (intros _; eexists; split; [seek | assumption]).
  all: seek.
Qed.

(** X19.  [scan_file] raises only for a refused fetch, with the storage
    client's error and without running the engine, or when the engine
    call itself raises, with the engine call's exception; removing the
    temporary copy never raises. *)
Theorem scan_file_raises_only_for_fetch_or_engine E bucket key w e :
  outcome (scan_file E bucket key) w = Raise e ->
  (exists msg,
      e = ClientError msg
      /\ In (Api (download_file bucket key (mkstemp E w)) (Some msg))
            (emitted (scan_file E bucket key) w)
      /\ List.filter is_engine_run (emitted (scan_file E bucket key) w) = [])
  \/ (In (Api (download_file bucket key (mkstemp E w)) None)
         (emitted (scan_file E bucket key) w)
      /\ In (Run (clamscan_args E (mkstemp E w)) 300 (RunRaised e))
            (emitted (scan_file E bucket key) w)).
Proof.
  destruct (scan_file_runs E bucket key w) as (r & evs & w' & Hr & P & _).
  rewrite (runs_emitted _ _ _ _ _ Hr), (runs_outcome _ _ _ _ _ Hr).
  intros ->.
  invert_path P.
  - left. eexists. split; [reflexivity |]. split; [seek | reflexivity].
  - right. split; seek.
Qed.




(** ** Quarantine locations *)

Lemma split_at_separator c a b x y :
  has_char c a = false ->
  has_char c b = false ->
  a ++ String c x = b ++ String c y ->
  a = b /\ x = y.
Proof.
  revert b. induction a as [| d a IH]; intros [| e b] Ha Hb H; cbn in *.
  - inversion H. now split.
  - inversion H; subst. rewrite Ascii.eqb_refl in Hb. discriminate Hb.
  - inversion H; subst. rewrite Ascii.eqb_refl in Ha. discriminate Ha.
  - inversion H; subst.
    apply orb_false_iff in Ha as [_ Ha]. apply orb_false_iff in Hb as [_ Hb].
    match goal with
    | H' : a ++ _ = b ++ _ |- _ => destruct (IH b Ha Hb H') as [-> ->]
    end.
    now split.
Qed.

Lemma digit_is_no_slash n :
  Ascii.eqb (ascii_of_N (48 + n mod 10)) "/" = false.
Proof.
  assert (Hm : (n mod 10 < 10)%N) by (apply N.mod_upper_bound; discriminate).
  generalize dependent (n mod 10)%N. intros m Hm.
  assert (Hd : (m = 0 \/ m = 1 \/ m = 2 \/ m = 3 \/ m = 4 \/ m = 5
                \/ m = 6 \/ m = 7 \/ m = 8 \/ m = 9)%N) by lia.
  repeat destruct Hd as [Hd | Hd]; rewrite Hd; reflexivity.
Qed.

Lemma digits_have_no_slash fuel n acc :
  has_char "/" (Str.digits_fuel fuel n acc) = has_char "/" acc.
Proof.
  revert n acc. induction fuel as [| fuel IH]; intros n acc; [reflexivity |].
  cbn [Str.digits_fuel].
  destruct (n / 10 =? 0)%N; [| rewrite IH];
    now rewrite has_char_cons, digit_is_no_slash.
Qed.

Lemma padded_has_no_slash width n : has_char "/" (Str.padded width n) = false.
Proof.
  unfold Str.padded, Str.decimal.
  rewrite has_char_app, digits_have_no_slash, orb_false_r.
  induction (width - _)%nat as [| k IH]; [reflexivity | exact IH].
Qed.

(** The quarantine key determines the date, the bucket and the key it was
    built from, for bucket names without a slash. *)
Lemma quarantine_key_injective E today1 today2 b1 k1 b2 k2 :
  has_char "/" b1 = false ->
  has_char "/" b2 = false ->
  quarantine_key E today1 (PStr b1) (PStr k1)
  = quarantine_key E today2 (PStr b2) (PStr k2) ->
  strftime_Ymd today1 = strftime_Ymd today2 /\ b1 = b2 /\ k1 = k2.
Proof.
  intros Hb1 Hb2 H.
  unfold quarantine_key, strftime_Ymd, str in H.
  rewrite !str_append_assoc in H.
  cbn [append] in H.
  inversion H as [H']. clear H.
  apply split_at_separator in H' as [Hy H'];
    try apply padded_has_no_slash.
  apply split_at_separator in H' as [Hm H'];
    try apply padded_has_no_slash.
  apply split_at_separator in H' as [Hd H'];
    try apply padded_has_no_slash.
  apply split_at_separator in H' as [Hb Hk]; try assumption.
  unfold strftime_Ymd. now rewrite Hy, Hm, Hd.
Qed.

Lemma copy_goes_to_the_quarantine_key
    E event ctx w b k dst qkey metadata directive error :
  In (Api (copy_object b k dst qkey metadata directive) error)
     (emitted (handler E event ctx) w) ->
  exists today, qkey = quarantine_key E today b k.
Proof.
  intros Hin.
  run_handler E event ctx w r evs P.
  outer_paths; sift Hin.
  all: match goal with
       | H : quarantine_path _ _ _ _ _ _ |- _ => invert_path H
       end;
    sift Hin; inversion Hin; subst; clear Hin.
  all: eexists; reflexivity.
Qed.

(** X21.  Two objects never share a quarantine location: when two
    invocations copy to the same quarantine key, they copy the same key of
    the same bucket (bucket names hold no slash).  The converse shows in
    the key itself: the same object detected twice on one day is written
    to the same location. *)
Theorem quarantine_locations_do_not_collide
    E event1 ctx1 w1 event2 ctx2 w2 b1 k1 b2 k2 qkey
    dst1 metadata1 directive1 error1 dst2 metadata2 directive2 error2 :
  has_char "/" b1 = false ->
  has_char "/" b2 = false ->
  In (Api (copy_object (PStr b1) (PStr k1) dst1 qkey metadata1 directive1)
          error1)
     (emitted (handler E event1 ctx1) w1) ->
  In (Api (copy_object (PStr b2) (PStr k2) dst2 qkey metadata2 directive2)
          error2)
     (emitted (handler E event2 ctx2) w2) ->
  b1 = b2 /\ k1 = k2.
Proof.
  intros Hb1 Hb2 Hin1 Hin2.
  apply copy_goes_to_the_quarantine_key in Hin1 as (today1 & H1).
  apply copy_goes_to_the_quarantine_key in Hin2 as (today2 & H2).
  rewrite H1 in H2.
  now destruct (quarantine_key_injective _ _ _ _ _ _ _ Hb1 Hb2 H2)
    as (_ & Hb & Hk).
Qed.

(** ** The extension gate *)

Lemma lower_app s1 s2 : Str.lower (s1 ++ s2) = Str.lower s1 ++ Str.lower s2.
Proof.
  induction s1 as [| d s1 IH]; [reflexivity |].
  change (String (Str.lower_char d) (Str.lower (s1 ++ s2))
          = String (Str.lower_char d) (Str.lower s1 ++ Str.lower s2)).
  now rewrite IH.
Qed.

Lemma lower_char_keeps_dot d :
  Ascii.eqb (Str.lower_char d) "." = Ascii.eqb d ".".
Proof. destruct d as [[] [] [] [] [] [] [] []]; reflexivity. Qed.

Lemma lower_char_keeps_slash d :
  Ascii.eqb (Str.lower_char d) "/" = Ascii.eqb d "/".
Proof. destruct d as [[] [] [] [] [] [] [] []]; reflexivity. Qed.

Lemma lower_keeps_dots s : has_char "." (Str.lower s) = has_char "." s.
Proof.
  induction s as [| d s IH]; [reflexivity |].
  cbn [Str.lower has_char]. now rewrite IH, lower_char_keeps_dot.
Qed.

Lemma lower_keeps_slashes s : has_char "/" (Str.lower s) = has_char "/" s.
Proof.
  induction s as [| d s IH]; [reflexivity |].
  cbn [Str.lower has_char]. now rewrite IH, lower_char_keeps_slash.
Qed.

Lemma lower_directory dir :
  dir = "" \/ (exists d, dir = d ++ "/") ->
  Str.lower dir = "" \/ (exists d, Str.lower dir = d ++ "/").
Proof.
  intros [-> | [d ->]]; [now left |].
  right. exists (Str.lower d). now rewrite lower_app.
Qed.

(** X22.  The extension the media gate looks at is the lower-cased last
    suffix of the file name: for a key made of a directory part, a name
    that does not start with a dot, a dot and a suffix free of dots and
    slashes, it is the dot followed by the lower-cased suffix.  So
    [report.pdf.JPG] is taken for a picture and [photo.jpg.exe] is not. *)
Theorem extension_is_the_lowercased_last_suffix dir c name suffix :
  dir = "" \/ (exists d, dir = d ++ "/") ->
  c <> "."%char ->
  c <> "/"%char ->
  has_char "/" name = false ->
  has_char "/" suffix = false ->
  has_char "." suffix = false ->
  snd (splitext (Str.lower (dir ++ String c name ++ "." ++ suffix)))
  = "." ++ Str.lower suffix.
Proof.
  intros Hdir Hdot Hsep Hname Hsuf1 Hsuf2.
  rewrite !lower_app.
  change (Str.lower (String c name))
    with (String (Str.lower_char c) (Str.lower name)).
  change (Str.lower ".") with ".".
  rewrite splitext_plain_name; [reflexivity | | | | | |].
  - now apply lower_directory.
  - intros Hc. apply Hdot. apply Ascii.eqb_eq.
    rewrite <- lower_char_keeps_dot, Hc. reflexivity.
  - intros Hc. apply Hsep. apply Ascii.eqb_eq.
    rewrite <- lower_char_keeps_slash, Hc. reflexivity.
  - now rewrite lower_keeps_slashes.
  - now rewrite lower_keeps_slashes.
  - now rewrite lower_keeps_dots.
Qed.

Lemma rfind_from_bound c s i last :
  last < i ->
  Str.rfind_from c s i last < i + Z.of_nat (String.length s).
Proof.
  revert i last. induction s as [| d s IH]; intros i last H.
  - cbn. lia.
  - cbn [Str.rfind_from String.length].
    destruct (Ascii.eqb d c).
    + specialize (IH (i + 1) i). lia.
    + specialize (IH (i + 1) last). lia.
Qed.

(** A file name without a dot, or with one leading dot only, has no
    extension. *)
Lemma splitext_no_extension dir lead name :
  dir = "" \/ (exists d, dir = d ++ "/") ->
  lead = "" \/ lead = "." ->
  has_char "/" name = false ->
  has_char "." name = false ->
  snd (splitext (dir ++ lead ++ name)) = "".
Proof.
  intros Hdir Hlead Hname1 Hname2.
  assert (Hsep : Str.rfind "/" (dir ++ lead ++ name)
                 = Z.of_nat (String.length dir) - 1).
  { unfold Str.rfind. rewrite rfind_from_app.
    fold (Str.rfind "/" dir). rewrite (rfind_directory dir Hdir).
    apply rfind_from_absent.
    destruct Hlead as [-> | ->]; [exact Hname1 |].
    now rewrite has_char_app, Hname1. }
  unfold splitext. rewrite Hsep.
  destruct Hlead as [-> | ->].
  - assert (Hdoti : Str.rfind "." (dir ++ "" ++ name)
                    <= Z.of_nat (String.length dir) - 1).
    { unfold Str.rfind. rewrite rfind_from_app.
      cbn [append]. rewrite (rfind_from_absent _ _ _ _ Hname2).
      pose proof (rfind_from_bound "." dir 0 (-1)). lia. }
    replace (Str.rfind "." (dir ++ "" ++ name)
             >? Z.of_nat (String.length dir) - 1) with false
      by (symmetry; rewrite Z.gtb_ltb; apply Z.ltb_ge; lia).
    reflexivity.
  - assert (Hdoti : Str.rfind "." (dir ++ "." ++ name)
                    = Z.of_nat (String.length dir)).
    { unfold Str.rfind. rewrite rfind_from_app.
      change ("." ++ name) with (String "." name).
      cbn [Str.rfind_from]. rewrite Ascii.eqb_refl.
      rewrite (rfind_from_absent _ _ _ _ Hname2). lia. }
    rewrite Hdoti.
    replace (Z.to_nat (Z.of_nat (String.length dir)
                       - (Z.of_nat (String.length dir) - 1 + 1)))
      with 0%nat by lia.
    cbn [has_non_dot]. now rewrite andb_false_r.
Qed.

Lemma no_extension_is_no_media : "" ∉ SKIP_EXTENSIONS.
Proof.
  intros H. apply (bool_decide_pack _) in H. vm_compute in H. exact H.
Qed.

(** X23.  A media extension counts only as the suffix of a name: a key
    whose file name has no dot, or is a dot file such as [.jpg] or
    [.mp4], has no extension, so it is never waved through by the media
    gate; within the size ceiling it is fetched for a scan. *)
Theorem dot_file_is_fetched_for_a_scan
    E event ctx w bucket size n dir lead name :
  parse_event E event = Ok (bucket, PStr (dir ++ lead ++ name), size) ->
  as_int size = Some n ->
  n <= MAX_FILE_SIZE (cfg E) ->
  dir = "" \/ (exists d, dir = d ++ "/") ->
  lead = "" \/ lead = "." ->
  has_char "/" name = false ->
  has_char "." name = false ->
  snd (splitext (Str.lower (dir ++ lead ++ name))) = ""
  /\ (exists path error,
        In (Api (download_file bucket (PStr (dir ++ lead ++ name)) path) error)
           (emitted (handler E event ctx) w))
  /\ ~ tagged bucket (PStr (dir ++ lead ++ name)) "clean"
         "Media file - basic validation" (emitted (handler E event ctx) w).
Proof.
  intros Hparse Hsize Hle Hdir Hlead Hname1 Hname2.
  assert (Hext : snd (splitext (Str.lower (dir ++ lead ++ name))) = "").
  { rewrite !lower_app. apply splitext_no_extension.
    - now apply lower_directory.
    - destruct Hlead as [-> | ->]; [now left | now right].
    - now rewrite lower_keeps_slashes.
    - now rewrite lower_keeps_dots. }
  split; [exact Hext |].
  pose proof (gt_int_false _ _ _ Hsize Hle) as Hcmp.
  assert (Hlow : str_lower (PStr (dir ++ lead ++ name))
                 = Ok (Str.lower (dir ++ lead ++ name))) by reflexivity.
  run_handler E event ctx w r evs P.
  outer_paths.
  all: try match goal with
       | H : snd (splitext _) ∈ SKIP_EXTENSIONS |- _ =>
           rewrite Hext in H; now destruct (no_extension_is_no_media H)
       end.
  all: match goal with
       | H : scan_path _ _ _ _ _ _ |- _ => invert_path H
       end;
    try absurd_outcome.
  all: split; [do 2 eexists; seek |].
  all: intros (? & ? & H); split_in H;
    try discriminate H; try absurd_in H.
  all: try match goal with
       | H : tag_path _ _ _ _ _ |- _ => invert_path H
       end.
  all: split_in H; try discriminate H; cbn in H; discriminate H.
Qed.

(** ** The configured ceiling *)

















(** ** The further properties on concrete invocations *)

Module More.

Import Demo Cases.

Ltac in_trace := vm_compute; repeat first [left; reflexivity | right].

Lemma published_alerts_keep_their_envelope_witness :
  let E := env (script all_fine true (Exited eicar)) in
  In (Api (publish "arn:aws:sns:eu-west-1:1:alerts"
             "[SECURITY ALERT] MALWARE_DETECTED" "{...}") None)
     (emitted (handler E pdf PNone) empty_world)
  /\ "arn:aws:sns:eu-west-1:1:alerts" = ALERT_TOPIC_ARN (cfg E).
Proof.
  assert (H : In (Api (publish "arn:aws:sns:eu-west-1:1:alerts"
                         "[SECURITY ALERT] MALWARE_DETECTED" "{...}") None)
                 (emitted (handler (env (script all_fine true (Exited eicar)))
                                   pdf PNone) empty_world))
    by in_trace.
  split; [exact H |].
  exact (proj1 (published_alerts_keep_their_envelope _ _ _ _ _ _ _ _ H)).
Defined.

Lemma eventbridge_event_parses_iff_witness :
  let E := env (script all_fine true (Exited eicar)) in
  dict_contains "detail" no_size = true
  /\ parse_event E no_size
     = Ok (PStr "uploads", PStr "docs/report.pdf", PInt 0).
Proof.
  split; [reflexivity |].
  apply (proj2 (eventbridge_event_parses_iff
                  (env (script all_fine true (Exited eicar))) no_size
                  (PStr "uploads") (PStr "docs/report.pdf") (PInt 0)
                  eq_refl)).
  split; [reflexivity |]. split; [reflexivity |].
  exists [("key", PStr "docs/report.pdf")]. split; reflexivity.
Defined.

Lemma s3_notification_parses_iff_witness :
  let E := env (script all_fine true (Exited eicar)) in
  let event := s3_notification [s3_record "uploads" "a.pdf" 10] in
  dict_contains "detail" event = false
  /\ dict_contains "Records" event = true
  /\ parse_event E event = Ok (PStr "uploads", PStr "a.pdf", PInt 10).
Proof.
  split; [reflexivity |]. split; [reflexivity |].
  apply (proj2 (s3_notification_parses_iff
                  (env (script all_fine true (Exited eicar)))
                  (s3_notification [s3_record "uploads" "a.pdf" 10])
                  (PStr "uploads") (PStr "a.pdf") (PInt 10)
                  eq_refl eq_refl)).
  exists (s3_record "uploads" "a.pdf" 10), [].
  split; [reflexivity |]. split; [reflexivity |]. split; [reflexivity |].
  exists [("key", PStr "a.pdf"); ("size", PInt 10)]. split; reflexivity.
Defined.

Lemma response_tells_what_was_done_witness :
  let E := env (script all_fine true (Exited eicar)) in
  outcome (handler E pdf PNone) empty_world
  = Ok {| statusCode := 200; body := "Infected file quarantined" |}
  /\ List.filter is_tagging (emitted (handler E pdf PNone) empty_world) = [].
Proof.
  split; [reflexivity |].
  destruct (response_tells_what_was_done
              (env (script all_fine true (Exited eicar))) pdf PNone
              empty_world
              {| statusCode := 200; body := "Infected file quarantined" |}
              eq_refl)
    as (_ & [(_ & _ & _ & Hnone) | (Hbody & _)]).
  - exact Hnone.
  - vm_compute in Hbody. repeat destruct Hbody as [Hbody | Hbody];
      try discriminate Hbody. destruct Hbody.
Defined.

Lemma original_is_deleted_only_after_its_copy_witness :
  let E := env (script all_fine true (Exited eicar)) in
  In (Api (delete_object (PStr "uploads") (PStr "docs/report.pdf")) None)
     (emitted (handler E pdf PNone) empty_world)
  /\ exists dst_key metadata args timeout p,
      next_to (Api (copy_object (PStr "uploads") (PStr "docs/report.pdf")
                      (QUARANTINE_BUCKET (cfg E)) dst_key metadata "REPLACE")
                   None)
              (Api (delete_object (PStr "uploads") (PStr "docs/report.pdf"))
                   None)
              (emitted (handler E pdf PNone) empty_world)
      /\ In (Run args timeout (Exited p))
            (emitted (handler E pdf PNone) empty_world)
      /\ returncode p = 1.
Proof.
  assert (H : In (Api (delete_object (PStr "uploads")
                         (PStr "docs/report.pdf")) None)
                 (emitted (handler (env (script all_fine true (Exited eicar)))
                                   pdf PNone) empty_world))
    by in_trace.
  split; [exact H |].
  exact (original_is_deleted_only_after_its_copy _ _ _ _ _ _ _ H).
Defined.

Lemma failed_delete_leaves_both_copies_witness :
  let E := env (script delete_denied true (Exited eicar)) in
  In (Api (delete_object (PStr "uploads") (PStr "docs/report.pdf"))
          (Some "AccessDenied"))
     (emitted (handler E pdf PNone) empty_world)
  /\ outcome (handler E pdf PNone) empty_world
     = Raise (ClientError "AccessDenied")
  /\ existsb (is_alert "MALWARE_DETECTED")
       (emitted (handler E pdf PNone) empty_world) = false.
Proof.
  assert (H : In (Api (delete_object (PStr "uploads")
                         (PStr "docs/report.pdf")) (Some "AccessDenied"))
                 (emitted (handler
                             (env (script delete_denied true (Exited eicar)))
                             pdf PNone) empty_world))
    by in_trace.
  split; [exact H |].
  destruct (failed_delete_leaves_both_copies _ _ _ _ _ _ _ H)
    as (Hraised & _ & Hnone & _).
  split; [exact Hraised | exact Hnone].
Defined.

Lemma clean_verdict_tags_clean_witness :
  let E := env (script all_fine true (Exited clean_run)) in
  In (Run clamscan_cmd 300 (Exited clean_run))
     (emitted (handler E pdf PNone) empty_world)
  /\ returncode clean_run = 0
  /\ outcome (handler E pdf PNone) empty_world
     = Ok {| statusCode := 200; body := "File scanned - clean" |}.
Proof.
  assert (H : In (Run clamscan_cmd 300 (Exited clean_run))
                 (emitted (handler
                             (env (script all_fine true (Exited clean_run)))
                             pdf PNone) empty_world))
    by in_trace.
  split; [exact H |]. split; [reflexivity |].
  exact (proj1 (proj2 (clean_verdict_tags_clean _ _ _ _ _ _ _ H eq_refl))).
Defined.

Lemma refused_fetch_fails_the_invocation_witness :
  let E := env (script fetch_denied true (Exited eicar)) in
  In (Api fetch_call (Some "NoSuchKey"))
     (emitted (handler E pdf PNone) empty_world)
  /\ outcome (handler E pdf PNone) empty_world
     = Raise (ClientError "NoSuchKey")
  /\ only [KPrint; KDownload; KPublish]
       (emitted (handler E pdf PNone) empty_world).
Proof.
  assert (H : In (Api fetch_call (Some "NoSuchKey"))
                 (emitted (handler
                             (env (script fetch_denied true (Exited eicar)))
                             pdf PNone) empty_world))
    by in_trace.
  split; [exact H |].
  destruct (refused_fetch_fails_the_invocation _ _ _ _ _ _ _ _ H)
    as (Hraised & _ & Honly).
  split; [exact Hraised | exact Honly].
Defined.

Lemma ill_typed_fields_fail_before_any_storage_call_witness :
  let E := env (script all_fine true (Exited eicar)) in
  parse_event E text_size
  = Ok (PStr "uploads", PStr "docs/report.pdf", PStr "2048")
  /\ as_int (PStr "2048") = None
  /\ only [KPrint; KPublish] (emitted (handler E text_size PNone) empty_world).
Proof.
  split; [reflexivity |]. split; [reflexivity |].
  exact (proj2 (ill_typed_fields_fail_before_any_storage_call
                  (env (script all_fine true (Exited eicar))) text_size PNone
                  empty_world (PStr "uploads") (PStr "docs/report.pdf")
                  (PStr "2048") eq_refl (or_introl eq_refl))).
Defined.

Lemma engine_scans_the_fetched_file_witness :
  let E := env (script all_fine true (Exited eicar)) in
  In (Run clamscan_cmd 300 (Exited eicar))
     (emitted (handler E pdf PNone) empty_world)
  /\ exists bucket key size path,
      parse_event E pdf = Ok (bucket, key, size)
      /\ clamscan_cmd
         = [CLAMSCAN_PATH (cfg E); "--database=" ++ CLAM_DB_PATH (cfg E);
            "--no-summary"; "--infected"; path]
      /\ exists line,
          next_to (Api (download_file bucket key path) None) (Print line)
            (emitted (handler E pdf PNone) empty_world)
          /\ next_to (Print line) (Run clamscan_cmd 300 (Exited eicar))
               (emitted (handler E pdf PNone) empty_world).
Proof.
  assert (H : In (Run clamscan_cmd 300 (Exited eicar))
                 (emitted (handler (env (script all_fine true (Exited eicar)))
                                   pdf PNone) empty_world))
    by in_trace.
  split; [exact H |].
  exact (proj2 (engine_scans_the_fetched_file _ _ _ _ _ _ _ H)).
Defined.

Lemma tags_written_are_fixed_by_the_route_witness :
  let E := env (script all_fine false (Exited eicar)) in
  In (Api (put_object_tagging (PStr "uploads") (PStr "docs/report.pdf")
             clean_tags) None)
     (emitted (handler E pdf PNone) empty_world)
  /\ (existsb is_download (emitted (handler E pdf PNone) empty_world) = true
      -> length clean_tags = 2%nat).
Proof.
  assert (H : In (Api (put_object_tagging (PStr "uploads")
                         (PStr "docs/report.pdf") clean_tags) None)
                 (emitted (handler
                             (env (script all_fine false (Exited eicar)))
                             pdf PNone) empty_world))
    by in_trace.
  split; [exact H |].
  exact (proj2 (proj2 (tags_written_are_fixed_by_the_route _ _ _ _ _ _ _ _ H))).
Defined.

Lemma gates_decide_the_route_witness :
  let E := env (script all_fine true (Exited eicar)) in
  parse_event E pdf = Ok (PStr "uploads", PStr "docs/report.pdf", PInt 2048)
  /\ as_int (PInt 2048) = Some 2048
  /\ (existsb is_download (emitted (handler E pdf PNone) empty_world) = true
      <-> 2048 <= MAX_FILE_SIZE (cfg E)
          /\ snd (splitext (Str.lower "docs/report.pdf")) ∉ SKIP_EXTENSIONS).
Proof.
  split; [reflexivity |]. split; [reflexivity |].
  exact (proj2 (proj2 (gates_decide_the_route
                         (env (script all_fine true (Exited eicar))) pdf PNone
                         empty_world (PStr "uploads") "docs/report.pdf"
                         (PInt 2048) 2048 eq_refl eq_refl))).
Defined.

Lemma verdict_goes_by_the_exit_code_witness :
  let E := env (script all_fine true (Exited eicar)) in
  outcome (scan_file E (PStr "uploads") (PStr "docs/report.pdf")) empty_world
  = Ok {| infected := true;
          details := "/tmp/tmpa1b2c3: Eicar-Test-Signature FOUND" |}
  /\ In (Api fetch_call None)
        (emitted (scan_file E (PStr "uploads") (PStr "docs/report.pdf"))
                 empty_world).
Proof.
  split; [reflexivity |].
  exact (proj2 (verdict_goes_by_the_exit_code
                  (env (script all_fine true (Exited eicar)))
                  (PStr "uploads") (PStr "docs/report.pdf") empty_world
                  {| infected := true;
                     details := "/tmp/tmpa1b2c3: Eicar-Test-Signature FOUND" |}
                  eq_refl)).
Defined.

Lemma scan_file_raises_only_for_fetch_or_engine_witness :
  let E := env (script fetch_denied true (Exited eicar)) in
  outcome (scan_file E (PStr "uploads") (PStr "docs/report.pdf")) empty_world
  = Raise (ClientError "NoSuchKey")
  /\ ((exists msg,
          ClientError "NoSuchKey" = ClientError msg
          /\ In (Api (download_file (PStr "uploads") (PStr "docs/report.pdf")
                        (mkstemp E empty_world)) (Some msg))
                (emitted (scan_file E (PStr "uploads")
                            (PStr "docs/report.pdf")) empty_world)
          /\ List.filter is_engine_run
               (emitted (scan_file E (PStr "uploads")
                           (PStr "docs/report.pdf")) empty_world) = [])
      \/ (In (Api (download_file (PStr "uploads") (PStr "docs/report.pdf")
                     (mkstemp E empty_world)) None)
             (emitted (scan_file E (PStr "uploads")
                         (PStr "docs/report.pdf")) empty_world)
          /\ In (Run (clamscan_args E (mkstemp E empty_world)) 300
                     (RunRaised (ClientError "NoSuchKey")))
                (emitted (scan_file E (PStr "uploads")
                            (PStr "docs/report.pdf")) empty_world))).
Proof.
  split; [reflexivity |].
  exact (scan_file_raises_only_for_fetch_or_engine
           (env (script fetch_denied true (Exited eicar)))
           (PStr "uploads") (PStr "docs/report.pdf") empty_world
           (ClientError "NoSuchKey") eq_refl).
Defined.

Lemma quarantine_locations_do_not_collide_witness :
  let E := env (script all_fine true (Exited eicar)) in
  has_char "/" "uploads" = false
  /\ In (Api quarantine_copy_call None)
        (emitted (handler E pdf PNone) empty_world)
  /\ In (Api quarantine_copy_call None)
        (emitted (handler E (s3_notification
                               [s3_record "uploads" "docs/report.pdf" 7])
                          PNone) empty_world)
  /\ "uploads" = "uploads" /\ "docs/report.pdf" = "docs/report.pdf".
Proof.
  assert (H1 : In (Api quarantine_copy_call None)
                  (emitted (handler (env (script all_fine true (Exited eicar)))
                                    pdf PNone) empty_world))
    by in_trace.
  assert (H2 : In (Api quarantine_copy_call None)
                  (emitted (handler (env (script all_fine true (Exited eicar)))
                                    (s3_notification
                                       [s3_record "uploads" "docs/report.pdf" 7])
                                    PNone) empty_world))
    by in_trace.
  split; [reflexivity |]. split; [exact H1 |]. split; [exact H2 |].
  exact (quarantine_locations_do_not_collide
           (env (script all_fine true (Exited eicar)))
           pdf PNone empty_world
           (s3_notification [s3_record "uploads" "docs/report.pdf" 7])
           PNone empty_world
           "uploads" "docs/report.pdf" "uploads" "docs/report.pdf"
           _ _ _ _ _ _ _ _ _ eq_refl eq_refl H1 H2).
Defined.

Lemma extension_is_the_lowercased_last_suffix_witness :
  snd (splitext (Str.lower "Photos/IMG_0001.tar.JPG")) = ".jpg".
Proof.
  apply (extension_is_the_lowercased_last_suffix
           "Photos/" "I" "MG_0001.tar" "JPG").
  - right. exists "Photos". reflexivity.
  - intros H. discriminate H.
  - intros H. discriminate H.
  - reflexivity.
  - reflexivity.
  - reflexivity.
Defined.

Lemma dot_file_is_fetched_for_a_scan_witness :
  let E := env (script all_fine true (Exited eicar)) in
  let event := eventbridge "uploads" "incoming/.jpg" 10 in
  parse_event E event = Ok (PStr "uploads", PStr "incoming/.jpg", PInt 10)
  /\ 10 <= MAX_FILE_SIZE (cfg E)
  /\ exists path error,
      In (Api (download_file (PStr "uploads") (PStr "incoming/.jpg") path)
              error)
         (emitted (handler E event PNone) empty_world).
Proof.
  split; [reflexivity |]. split; [vm_compute; discriminate |].
  apply (dot_file_is_fetched_for_a_scan
           (env (script all_fine true (Exited eicar)))
           (eventbridge "uploads" "incoming/.jpg" 10) PNone empty_world
           (PStr "uploads") (PInt 10) 10 "incoming/" "." "jpg").
  - reflexivity.
  - reflexivity.
  - vm_compute. discriminate.
  - right. exists "incoming". reflexivity.
  - right. reflexivity.
  - reflexivity.
  - reflexivity.
Defined.


End More.
